(** * Verification of the moderation filter of bot-1

    Shallow embedding of [bot/cogs/filtering.py] and of the functions of
    [bot/utils/time.py] that need no calendar.

    Conventions of the embedding:
    - a Python [str] is a [string]; a character is a code point below 256,
      on which [re.IGNORECASE] is plain ASCII case folding; what is proved of
      a text is proved of the texts made of these code points;
    - a naive UTC [datetime] is a [Z], the microseconds since the epoch, and a
      [timedelta] is a [Z] number of microseconds; the zone of the host, which
      [timestamp] reads, is part of the environment;
    - the compiled regular expressions of the module are hand-compiled
      scanners, one per pattern;
    - awaited calls to the outside (Discord, the site API, the invite
      endpoint, Redis, the mod log) append an event to a trace, and what they
      answer is read from an environment. *)

From Stdlib Require Import ZArith String Ascii List Lia Bool.
From stdpp Require Import gmap strings pretty.

Open Scope string_scope.

(** ** Python strings and lists *)

Module Py.

(** [sep.join(parts)] *)
Fixpoint join_sep (sep : string) (parts : list string) : string :=
  match parts with
  | [] => ""
  | [p] => p
  | p :: ps => p +:+ sep +:+ join_sep sep ps
  end.

(** [''.join(parts)] *)
Fixpoint join (parts : list string) : string :=
  match parts with
  | [] => ""
  | p :: ps => p +:+ join ps
  end.

(** [xs[0::2]] *)
Fixpoint every_other {A : Type} (xs : list A) : list A :=
  match xs with
  | [] => []
  | [x] => [x]
  | x :: _ :: rest => x :: every_other rest
  end.

(** [xs[start::2]] for [start] within 0 and 1 as the module uses it *)
Definition slice_step2 {A : Type} (start : nat) (xs : list A) : list A :=
  every_other (drop start xs).

(** [s[n:]] *)
Fixpoint string_drop (n : nat) (s : string) : string :=
  match n, s with
  | O, _ => s
  | S k, EmptyString => EmptyString
  | S k, String _ rest => string_drop k rest
  end.

(** [s[:n]] *)
Fixpoint string_take (n : nat) (s : string) : string :=
  match n, s with
  | O, _ => EmptyString
  | S k, EmptyString => EmptyString
  | S k, String c rest => String c (string_take k rest)
  end.

(** ASCII case folding, the whole of [re.IGNORECASE] below code point 256 *)
Definition lower_char (c : ascii) : ascii :=
  let n := nat_of_ascii c in
  if (65 <=? n)%nat && (n <=? 90)%nat then ascii_of_nat (n + 32) else c.

(** [c.lower()] below code point 256: the ASCII capitals and the accented
    capitals 192 to 222, the multiplication sign 215 apart *)
Definition str_lower_char (c : ascii) : ascii :=
  let n := nat_of_ascii c in
  if ((65 <=? n) && (n <=? 90) || (192 <=? n) && (n <=? 222) && negb (n =? 215))%nat
  then ascii_of_nat (n + 32) else c.

(** [s.lower()] *)
Fixpoint lower (s : string) : string :=
  match s with
  | EmptyString => EmptyString
  | String c rest => String (str_lower_char c) (lower rest)
  end.

(** [s.replace(c, "")] for a single character [c] *)
Fixpoint remove_char (c : ascii) (s : string) : string :=
  match s with
  | EmptyString => EmptyString
  | String a rest =>
      if Ascii.eqb a c then remove_char c rest else String a (remove_char c rest)
  end.

(** [s[i:j]] for [0 <= i] *)
Definition slice (i j : nat) (s : string) : string :=
  string_take (j - i) (string_drop i s).

Definition is_alpha (c : ascii) : bool :=
  let n := nat_of_ascii c in
  ((65 <=? n) && (n <=? 90) || (97 <=? n) && (n <=? 122))%nat.

Definition upper_char (c : ascii) : ascii :=
  let n := nat_of_ascii c in
  if (97 <=? n)%nat && (n <=? 122)%nat then ascii_of_nat (n - 32) else c.

(** [s.title()] on ASCII words; [inside] tells whether the previous
    character was a letter *)
Fixpoint title_from (inside : bool) (s : string) : string :=
  match s with
  | EmptyString => EmptyString
  | String c rest =>
      String (if inside then lower_char c else upper_char c)
             (title_from (is_alpha c) rest)
  end.

Definition title (s : string) : string := title_from false s.

(** [key in d] and [d[key] = v] on a [dict], kept in insertion order *)
Definition dict_has {V : Type} (key : string) (d : list (string * V)) : bool :=
  existsb (fun kv => String.eqb key kv.1) d.

Fixpoint dict_set {V : Type} (key : string) (v : V) (d : list (string * V))
  : list (string * V) :=
  match d with
  | [] => [(key, v)]
  | (k, v') :: d' =>
      if String.eqb key k then (key, v) :: d' else (k, v') :: dict_set key v d'
  end.

(** [prefix] is a prefix of [s], compared case-insensitively when [fold] *)
Fixpoint starts_with (fold : bool) (prefix s : string) : bool :=
  match prefix, s with
  | EmptyString, _ => true
  | String _ _, EmptyString => false
  | String p prefix', String c s' =>
      (if fold then Ascii.eqb (lower_char p) (lower_char c) else Ascii.eqb p c)
      && starts_with fold prefix' s'
  end.

(** [needle in s] on strings *)
Fixpoint contains (needle s : string) : bool :=
  starts_with false needle s
  || match s with
     | EmptyString => false
     | String _ rest => contains needle rest
     end.

End Py.

(** ** The compiled patterns of the module *)

Module Re.

(** *** [SPOILER_RE = re.compile(r"(\|\|.+?\|\|)", re.DOTALL)] *)

(** offset of the first ["||"] in [s] *)
Fixpoint find_bars (s : string) : option nat :=
  match s with
  | EmptyString => None
  | String _ rest =>
      if Py.starts_with false "||" s then Some O
      else option_map S (find_bars rest)
  end.

(** Length of the match of [SPOILER_RE] that starts at the head of [s]:
    two bars, one character of any kind ([re.DOTALL]), then as few
    characters as possible up to the next two bars. *)
Definition SPOILER_RE_match (s : string) : option nat :=
  match s with
  | String a (String b (String _ rest)) =>
      if Ascii.eqb a "|" && Ascii.eqb b "|" then
        match find_bars rest with
        | Some k => Some (3 + k + 2)%nat
        | None => None
        end
      else None
  | _ => None
  end.

(** [SPOILER_RE.split]: the pattern is one capture group, so the list
    alternates text between matches (even indexes) and the matched
    delimiters themselves (odd indexes). [skip] counts the characters of
    the current match still to pass, [seg] is the text since the last
    match. *)
Fixpoint split_from (s : string) (skip : nat) (seg : string) : list string :=
  match s with
  | EmptyString => [seg]
  | String c rest =>
      match skip with
      | S k => split_from rest k seg
      | O =>
          match SPOILER_RE_match s with
          | Some n => seg :: Py.string_take n s :: split_from rest (n - 1) ""
          | None => split_from rest O (seg +:+ String c "")
          end
      end
  end.

Definition SPOILER_RE_split (text : string) : list string :=
  split_from text O "".

(** [SPOILER_RE.search(text)] as a truth value *)
Fixpoint SPOILER_RE_search (s : string) : bool :=
  match s with
  | EmptyString => false
  | String _ rest =>
      match SPOILER_RE_match s with
      | Some _ => true
      | None => SPOILER_RE_search rest
      end
  end.

(** *** Scanning helpers shared by [URL_RE] and [INVITE_RE] *)

(** [re.findall] for a pattern given by its matcher at the head of the
    text: [m s] is the length of the match that starts at the head of [s]
    and the text of its group, matches are never empty, and the scan resumes
    after each match. *)
Fixpoint findall_from (m : string -> option (nat * string)) (s : string) (skip : nat)
  : list string :=
  match s with
  | EmptyString => []
  | String _ rest =>
      match skip with
      | S k => findall_from m rest k
      | O =>
          match m s with
          | Some (n, g) => g :: findall_from m rest (n - 1)
          | None => findall_from m rest O
          end
      end
  end.

(** [re.search] as a truth value, for the same kind of matcher *)
Fixpoint search_from (m : string -> option (nat * string)) (s : string) : bool :=
  match s with
  | EmptyString => false
  | String _ rest =>
      match m s with
      | Some _ => true
      | None => search_from m rest
      end
  end.

(** a literal of the pattern under [re.IGNORECASE]: what is left of [s] *)
Definition eat (lit s : string) : option string :=
  if Py.starts_with true lit s then Some (Py.string_drop (String.length lit) s)
  else None.

(** length of the longest prefix of [s] made of characters in [p] *)
Fixpoint span_len (p : ascii -> bool) (s : string) : nat :=
  match s with
  | EmptyString => O
  | String c rest => if p c then S (span_len p rest) else O
  end.

(** [\s] on code points below 256 *)
Definition is_space (c : ascii) : bool :=
  let n := nat_of_ascii c in
  ((9 <=? n) && (n <=? 13) || (28 <=? n) && (n <=? 32) || (n =? 133) || (n =? 160))%nat.

(** [[a-zA-Z0-9]] under [re.IGNORECASE], by code point: the ASCII digits
    and letters, and the four code points that fold to an ASCII letter,
    U+0130 and U+0131 to [i], U+017F to [s] and U+212A to [k] *)
Definition alnum_code_point (n : N) : bool :=
  ((48 <=? n) && (n <=? 57) || (65 <=? n) && (n <=? 90) || (97 <=? n) && (n <=? 122)
   || (n =? 304) || (n =? 305) || (n =? 383) || (n =? 8490))%N.

(** the class on a character of a [string] *)
Definition is_alnum (c : ascii) : bool := alnum_code_point (N_of_ascii c).

(** *** [URL_RE = re.compile(r"(https?://[^\s]+)", flags=re.IGNORECASE)]

    The optional [s] needs no backtracking: when it is taken and [://] does
    not follow, [://] cannot start at that [s] either. *)
Definition URL_RE_match (s : string) : option (nat * string) :=
  r ← eat "http" s;
  let r := default r (eat "s" r) in
  r ← eat "://" r;
  let n := span_len (fun c => negb (is_space c)) r in
  if (n =? 0)%nat then None
  else
    let len := (String.length s - String.length r + n)%nat in
    Some (len, Py.string_take len s).

Definition URL_RE_findall (text : string) : list string :=
  findall_from URL_RE_match text O.

Definition URL_RE_search (text : string) : bool :=
  search_from URL_RE_match text.

(** *** [INVITE_RE]

    Five spellings of the host, then a slash, then the code, the one group
    of the pattern. The spellings exclude one another on any text, so the
    first that goes through is the regex's match. *)

(** [(?:[\.,]|dot)] *)
Definition eat_dot (s : string) : option string :=
  match s with
  | String c rest =>
      if Ascii.eqb c "." || Ascii.eqb c "," then Some rest else eat "dot" s
  | EmptyString => None
  end.

(** [(?:\/|slash)] *)
Definition eat_slash (s : string) : option string :=
  match s with
  | String c rest => if Ascii.eqb c "/" then Some rest else eat "slash" s
  | EmptyString => None
  end.

Definition invite_hosts : list (string -> option string) :=
  [ (fun s => r ← eat "discord" s; r ← eat_dot r; eat "gg" r);
    (fun s => r ← eat "discord" s; r ← eat_dot r; r ← eat "com" r;
              r ← eat_slash r; eat "invite" r);
    (fun s => r ← eat "discordapp" s; r ← eat_dot r; r ← eat "com" r;
              r ← eat_slash r; eat "invite" r);
    (fun s => r ← eat "discord" s; r ← eat_dot r; eat "me" r);
    (fun s => r ← eat "discord" s; r ← eat_dot r; eat "io" r) ].

(** after a host: [(?:[\/]|slash)([a-zA-Z0-9]+)] *)
Definition invite_code (s r : string) : option (nat * string) :=
  r ← eat_slash r;
  let n := span_len is_alnum r in
  if (n =? 0)%nat then None
  else Some ((String.length s - String.length r + n)%nat, Py.string_take n r).

Fixpoint first_host (hosts : list (string -> option string)) (s : string)
  : option (nat * string) :=
  match hosts with
  | [] => None
  | h :: hosts' =>
      match h s ≫= invite_code s with
      | Some m => Some m
      | None => first_host hosts' s
      end
  end.

Definition INVITE_RE_match (s : string) : option (nat * string) :=
  first_host invite_hosts s.

Definition INVITE_RE_findall (text : string) : list string :=
  findall_from INVITE_RE_match text O.

End Re.

(** ** [expand_spoilers] *)

Definition expand_spoilers (text : string) : string :=
  let split_text := Re.SPOILER_RE_split text in
  Py.join (Py.slice_step2 0 split_text ++ Py.slice_step2 1 split_text ++ split_text).

(** Text of [s] that lies outside every [||...||] span: the even-indexed
    pieces of the split, which are the stretches between the matches. *)
Definition outside_spoilers (s : string) : list string :=
  Py.slice_step2 0 (Re.SPOILER_RE_split s).

(** [needle] occurs in [s] somewhere outside the spoiler spans of [s] *)
Definition occurs_outside_spoilers (needle s : string) : bool :=
  existsb (Py.contains needle) (outside_spoilers s).

(** ** Exceptions and results *)

Inductive exn :=
| NotFound
| Forbidden
| HTTPException
| KeyError (key : string)
| AttributeError (attr : string)
| TypeError.

(** [except NotFound], [except Forbidden], [except HTTPException]: the first
    two classes derive from the third *)
Definition is_NotFound (e : exn) : bool :=
  match e with NotFound => true | _ => false end.

Definition is_Forbidden (e : exn) : bool :=
  match e with Forbidden => true | _ => false end.

Definition is_HTTPException (e : exn) : bool :=
  match e with NotFound | Forbidden | HTTPException => true | _ => false end.

Inductive Result (A : Type) :=
| Ok (a : A)
| Raise (e : exn).

Arguments Ok {A} a.
Arguments Raise {A} e.

(** ** Names bound by the import statements

    [filtering.py] has [from datetime import datetime, timedelta], so its
    global [datetime] is the class; [time.py] has [import datetime], so its
    global [datetime] is the module. *)

Inductive Binding := ModuleDatetime | ClassDatetime.

(** [x.datetime] *)
Definition attr_datetime (x : Binding) : Result Binding :=
  match x with
  | ModuleDatetime => Ok ClassDatetime
  | ClassDatetime => Raise (AttributeError "datetime")
  end.

(** [x.utcnow()] when the clock reads [clock] *)
Definition call_utcnow (x : Binding) (clock : Z) : Result Z :=
  match x with
  | ClassDatetime => Ok clock
  | ModuleDatetime => Raise (AttributeError "utcnow")
  end.

(** ** Data model *)

Open Scope Z_scope.
Open Scope list_scope.

(** [timedelta(days=n)] and [timedelta(seconds=n)] in microseconds *)
Definition timedelta_days (n : Z) : Z := n * 86400 * 1000000.
Definition timedelta_seconds (n : Z) : Z := n * 1000000.

Record Embed := {
  embed_type : string;
  embed_url : option string        (* [None] is [Embed.Empty] *)
}.

Inductive ChannelType := ChText | ChPrivate | ChOther.

Record Channel := {
  channel_id : Z;
  channel_type : ChannelType;
  channel_mention : string
}.

Record Author := {
  author_id : Z;
  is_Member : bool;                (* [type(msg.author) is Member] *)
  role_ids : list Z;               (* [role.id for role in msg.author.roles] *)
  bot : bool;
  author_str : string;             (* [str(msg.author)] *)
  mention : string;
  display_name : string
}.

Record Message := {
  msg_id : Z;
  content : string;
  embeds : list Embed;
  author : Author;
  channel : Channel;
  created_at : Z;
  edited_at : option Z;
  jump_url : string
}.

(** The record of an offensive message kept by the site: the [data] dict
    of [_filter_message]. [delete_date] stands for the ISO string, which
    [isoformat] writes and [isoparse] reads back without loss. *)
Record OffensiveMsg := {
  om_id : Z;
  om_channel_id : Z;
  delete_date : Z
}.

(** What the invite endpoint says of a guild, and the entry
    [_has_invites] keeps of it *)
Record InviteResponse := {
  guild_id : Z;
  guild_name : string;
  guild_icon : string;
  approximate_member_count : Z;
  approximate_presence_count : Z
}.

Record InviteInfo := {
  name : string;
  icon : string;
  members : Z;
  active : Z
}.

(** A match object of [re]: the searched string and the span *)
Record ReMatch := {
  m_string : string;
  m_start : nat;
  m_end : nat
}.

(** What a filter function returns *)
Inductive MatchValue :=
| VNone
| VBool (b : bool)
| VMatch (m : ReMatch)
| VDict (d : list (string * InviteInfo)).

(** [if match:] *)
Definition truthy (v : MatchValue) : bool :=
  match v with
  | VNone => false
  | VBool b => b
  | VMatch _ => true
  | VDict d => negb (bool_decide (d = []))
  end.

(** [bot.constants.Filter], which the file imports *)
Record FilterConfig := {
  filter_zalgo : bool;
  filter_invites : bool;
  filter_domains : bool;
  watch_regex : bool;
  watch_rich_embeds : bool;
  watch_words : bool;
  watch_tokens : bool;
  notify_user_zalgo : bool;
  notify_user_invites : bool;
  notify_user_domains : bool;
  ping_everyone : bool;
  offensive_msg_delete_days : Z;
  guild_invite_whitelist : list Z;
  domain_blacklist : list string;
  word_watchlist : list string;
  token_watchlist : list string;
  channel_whitelist : list Z;
  role_whitelist : list Z
}.

(** Additional embeds of a mod log entry *)
Inductive Extra :=
| NoExtra
| InviteEmbeds (d : list (string * InviteInfo))
| MessageEmbeds (l : list Embed).

(** Calls that leave the cog, in the order they are made *)
Inductive Action :=
| GetInvite (code : string)                  (* [http_session.get(.../{invite})] *)
| DeleteMessage (id : Z)                     (* [msg.delete()] *)
| SendDM (member : Z) (text : string)        (* [filtered_member.send(reason)] *)
| SendChannel (chan : Z) (text : string)     (* [channel.send(...)] *)
| ApiPost (data : OffensiveMsg)              (* [api_client.post('bot/offensive-messages')] *)
| ApiGet                                     (* [api_client.get('bot/offensive-messages')] *)
| ApiDelete (id : Z)                         (* [api_client.delete('bot/offensive-messages/{id}')] *)
| FetchMessage (chan id : Z)                 (* [channel.fetch_message(id)] *)
| ScheduleTask (id : Z) (data : OffensiveMsg) (* [self.schedule_task(id, data)] *)
| StatsIncr (key : string)                   (* [bot.stats.incr(key)] *)
| SendLog (title text : string) (ping : bool)
          (additional_embeds : Extra) (additional_embeds_msg : option string)
| CacheGet (user : Z)                        (* [name_alerts.get(member.id)] *)
| CacheSet (user : Z) (stamp : Z).           (* [name_alerts.set(member.id, ...)] *)

(** The world outside: which call fails and how, what the read calls
    answer, and the time zone of the host. *)
Record Env := {
  raises : Action -> option exn;
  invite_api : string -> option InviteResponse;   (* [None]: no ["guild"] key *)
  get_channel : Z -> bool;                        (* [bot.get_channel(id)] is not [None] *)
  offensive_messages : list OffensiveMsg;         (* answer of [ApiGet] *)
  local_utcoffset : Z -> Z   (* what the host's zone is ahead of UTC, in microseconds,
                                when its wall clock shows the reading given *)
}.

(** ** Computations: a trace of calls and a result *)

Definition M (A : Type) : Type := list Action * Result A.

Definition ret {A : Type} (a : A) : M A := ([], Ok a).

Definition raise {A : Type} (e : exn) : M A := ([], Raise e).

Definition bind {A B : Type} (m : M A) (k : A -> M B) : M B :=
  match m with
  | (t, Ok a) => let '(t', r) := k a in (t ++ t', r)
  | (t, Raise e) => (t, Raise e)
  end.

Notation "'let*' x ':=' m 'in' k" := (bind m (fun x => k))
  (at level 10, x name, m at level 200, k at level 200).

(** an awaited call *)
Definition call (env : Env) (a : Action) : M unit :=
  ([a], match raises env a with Some e => Raise e | None => Ok tt end).

(** [try: m  except <class>: h] *)
Definition try_except {A : Type} (m : M A) (catches : exn -> bool) (h : M A) : M A :=
  match m with
  | (t, Raise e) => if catches e then let '(t', r) := h in (t ++ t', r) else (t, Raise e)
  | (t, Ok a) => (t, Ok a)
  end.

(** [d[key]] on a dict whose key may be missing *)
Definition getitem {A : Type} (o : option A) (key : string) : M A :=
  match o with
  | Some v => ret v
  | None => raise (KeyError key)
  end.

(** a [Result] with no call made *)
Definition lift {A : Type} (r : Result A) : M A := ([], r).

(** [path.utcnow()], where [path] is how the source names the class *)
Definition utcnow_of (path : Result Binding) (clock : Z) : Result Z :=
  match path with
  | Ok x => call_utcnow x clock
  | Raise e => Raise e
  end.

(** ** [bot/utils/time.py] *)

Module Time.

(** [import datetime] *)
Definition datetime : Binding := ModuleDatetime.

(** [await asyncio.sleep(delay)] called when the clock reads [clock]: the
    event loop resumes the task once the delay has passed, [late]
    microseconds after that, never before. *)
Definition asyncio_sleep (late : N) (clock delay : Z) : Z :=
  clock + delay + Z.of_N late.

(** [wait_until(time, start)]: the clock reading when it returns.
    [delay.total_seconds() > 1.0] is a comparison of floats, exact for every
    delay below 2^53 microseconds. *)
Definition wait_until (late : N) (clock : Z) (time : Z) (start : option Z) : Result Z :=
  match
    match start with
    | Some s => Ok s
    | None => utcnow_of (attr_datetime datetime) clock
    end
  with
  | Ok t0 =>
      let delay := time - t0 in
      if timedelta_seconds 1 <? delay then Ok (asyncio_sleep late clock delay)
      else Ok clock
  | Raise e => Raise e
  end.

(** *** The text of a duration *)

(** What the text functions of the module raise: [ValueError], or whatever
    the lookup of the clock raises *)
Inductive error :=
| ValueError (msg : string)
| Other (e : exn).

Inductive Outcome (A : Type) :=
| Returns (a : A)
| Raises (e : error).

Arguments Returns {A} a.
Arguments Raises {A} e.

(** A [relativedelta], by its fields down to the seconds *)
Record relativedelta := {
  years : Z;
  months : Z;
  days : Z;
  hours : Z;
  minutes : Z;
  seconds : Z
}.

(** [unit[:-1]] *)
Definition drop_last (s : string) : string :=
  Py.string_take (String.length s - 1) s.

Definition _stringify_time_unit (value : Z) (unit : string) : string :=
  if value =? 1 then pretty value +:+ " " +:+ drop_last unit
  else if value =? 0 then "less than a " +:+ drop_last unit
  else pretty value +:+ " " +:+ unit.

(** the tuple [units] of [humanize_delta] *)
Definition units_of (delta : relativedelta) : list (string * Z) :=
  [ ("years", years delta);
    ("months", months delta);
    ("days", days delta);
    ("hours", hours delta);
    ("minutes", minutes delta);
    ("seconds", seconds delta) ].

(** the loop of [humanize_delta] over what is left of [units] *)
Fixpoint humanize_loop (precision : string) (max_units : Z) (units : list (string * Z))
    (time_strings : list string) (unit_count : Z) : list string :=
  match units with
  | [] => time_strings
  | (unit, value) :: rest =>
      let '(time_strings, unit_count) :=
        if negb (value =? 0)
        then (time_strings ++ [_stringify_time_unit value unit], unit_count + 1)
        else (time_strings, unit_count) in
      if String.eqb unit precision || (max_units <=? unit_count) then time_strings
      else humanize_loop precision max_units rest time_strings unit_count
  end.

(** [time_strings[-1] = f"{time_strings[-2]} and {time_strings[-1]}"] then
    [del time_strings[-2]], on a list of two strings or more *)
Fixpoint join_last_two (time_strings : list string) : list string :=
  match time_strings with
  | [] => []
  | [a] => [a]
  | [a; b] => [a +:+ " and " +:+ b]
  | a :: rest => a :: join_last_two rest
  end.

Definition humanize_delta (delta : relativedelta) (precision : string) (max_units : Z)
  : Outcome string :=
  if max_units <=? 0 then Raises (ValueError "max_units must be positive")
  else
    let time_strings := humanize_loop precision max_units (units_of delta) [] 0 in
    let time_strings :=
      if (1 <? length time_strings)%nat then join_last_two time_strings
      else time_strings in
    if bool_decide (time_strings = []) then Returns (_stringify_time_unit 0 precision)
    else Returns (Py.join_sep ", " time_strings).

(** [dt.replace(microsecond=0)] *)
Definition replace_microsecond_0 (dt : Z) : Z := dt - dt mod 1000000.

Section Infractions.

(** [dateutil.parser.isoparse] with the time zone dropped, the format
    [INFRACTION_FORMAT] of [strftime], and [relativedelta(dt1, dt2)], which
    needs the calendar: the three come from libraries. *)
Variable isoparse : string -> Outcome Z.
Variable strftime_infraction : Z -> string.
Variable relativedelta_between : Z -> Z -> relativedelta.

(** [datetime.datetime.utcnow()] in this module *)
Definition utcnow (clock : Z) : Outcome Z :=
  match utcnow_of (attr_datetime datetime) clock with
  | Ok now => Returns now
  | Raise e => Raises (Other e)
  end.

Definition format_infraction (timestamp : string) : Outcome string :=
  match isoparse timestamp with
  | Returns dt => Returns (strftime_infraction dt)
  | Raises e => Raises e
  end.

(** [not expiry] on an [Optional[str]] *)
Definition no_expiry (expiry : option string) : bool :=
  match expiry with
  | None => true
  | Some e => bool_decide (e = "")
  end.

Definition format_infraction_with_duration (clock : Z) (expiry : option string)
    (date_from : option Z) (max_units : Z) : Outcome (option string) :=
  if no_expiry expiry then Returns None
  else
    let expiry := default "" expiry in
    match
      match date_from with
      | Some d => Returns d
      | None => utcnow clock
      end
    with
    | Raises e => Raises e
    | Returns date_from =>
        match isoparse expiry with
        | Raises e => Raises e
        | Returns dt =>
            let date_to := replace_microsecond_0 dt in
            match format_infraction expiry with
            | Raises e => Raises e
            | Returns expiry_formatted =>
                match humanize_delta (relativedelta_between date_to date_from)
                        "seconds" max_units with
                | Raises e => Raises e
                | Returns duration =>
                    let duration_formatted :=
                      if negb (bool_decide (duration = ""))
                      then " (" +:+ duration +:+ ")" else "" in
                    Returns (Some (expiry_formatted +:+ duration_formatted))
                end
            end
        end
    end.

Definition until_expiration (clock : Z) (expiry : option string) (max_units : Z)
  : Outcome (option string) :=
  if no_expiry expiry then Returns None
  else
    let expiry := default "" expiry in
    match utcnow clock with
    | Raises e => Raises e
    | Returns now =>
        match isoparse expiry with
        | Raises e => Raises e
        | Returns dt =>
            let since := replace_microsecond_0 dt in
            if since <? now then Returns None
            else
              match humanize_delta (relativedelta_between since now)
                      "seconds" max_units with
              | Raises e => Raises e
              | Returns text => Returns (Some text)
              end
        end
    end.

End Infractions.

End Time.

(** [match is True] *)
Definition is_True (v : MatchValue) : bool :=
  match v with
  | VBool true => true
  | _ => false
  end.

(** ** The cog *)

Section Filtering.

(** [discord.utils.escape_markdown], and [pattern.search(text)] for a
    pattern compiled with [re.IGNORECASE] from its source text: both come
    from libraries. *)
Variable escape_markdown : string -> string.
Variable re_search : string -> string -> option ReMatch.

Variable cfg : FilterConfig.
Variable env : Env.

(** [from datetime import datetime, timedelta] *)
Definition datetime : Binding := ClassDatetime.

Definition WORD_WATCHLIST_PATTERNS : list string :=
  map (fun expression => "\b" +:+ expression +:+ "\b") (word_watchlist cfg).

Definition TOKEN_WATCHLIST_PATTERNS : list string := token_watchlist cfg.

Definition WATCHLIST_PATTERNS : list string :=
  WORD_WATCHLIST_PATTERNS ++ TOKEN_WATCHLIST_PATTERNS.

Definition DAYS_BETWEEN_ALERTS : Z := 3.

Definition OFFENSIVE_MSG_DELETE_TIME : Z :=
  timedelta_days (offensive_msg_delete_days cfg).

(** *** Filter functions *)

(** the loop of [_has_watch_regex_match]; falling out of it returns [None] *)
Fixpoint first_pattern_match (patterns : list string) (text : string) : MatchValue :=
  match patterns with
  | [] => VNone
  | pattern :: rest =>
      match re_search pattern text with
      | Some m => VMatch m
      | None => first_pattern_match rest text
      end
  end.

Definition _has_watch_regex_match (text : string) : MatchValue :=
  let text := if Re.SPOILER_RE_search text then expand_spoilers text else text in
  if Re.URL_RE_search text then VBool false
  else first_pattern_match WATCHLIST_PATTERNS text.

Definition _has_urls (text : string) : MatchValue :=
  if negb (Re.URL_RE_search text) then VBool false
  else
    let text := Py.lower text in
    VBool (existsb (fun url => Py.contains (Py.lower url) text) (domain_blacklist cfg)).

(** the loop of [_has_invites] with the dict [invite_data] built so far *)
Fixpoint invites_loop (invites : list string) (invite_data : list (string * InviteInfo))
  : M MatchValue :=
  match invites with
  | [] => ret (if bool_decide (invite_data = []) then VBool false else VDict invite_data)
  | invite :: rest =>
      if Py.dict_has invite invite_data then invites_loop rest invite_data
      else
        let* _ := call env (GetInvite invite) in
        match invite_api env invite with
        | None => ret (VBool true)
        | Some response =>
            let guild_id := guild_id response in
            if negb (bool_decide (guild_id ∈ guild_invite_whitelist cfg)) then
              let guild_icon :=
                "https://cdn.discordapp.com/icons/" +:+ pretty guild_id +:+ "/"
                +:+ guild_icon response +:+ ".png?size=512" in
              invites_loop rest
                (Py.dict_set invite
                   {| name := guild_name response;
                      icon := guild_icon;
                      members := approximate_member_count response;
                      active := approximate_presence_count response |}
                   invite_data)
            else invites_loop rest invite_data
        end
  end.

Definition _has_invites (text : string) : M MatchValue :=
  let text := Py.remove_char "\" text in
  let invites := Re.INVITE_RE_findall text in
  invites_loop invites [].

(** [not embed.url] *)
Definition url_missing (url : option string) : bool :=
  match url with
  | None => true
  | Some u => bool_decide (u = "")
  end.

(** the loop of [_has_rich_embed]; both branches under the first rich
    embed return *)
Fixpoint rich_embed_loop (msg : Message) (embeds : list Embed) : bool :=
  match embeds with
  | [] => false
  | embed :: rest =>
      if String.eqb (embed_type embed) "rich" then
        let urls := Re.URL_RE_findall (content msg) in
        if url_missing (embed_url embed)
           || negb (bool_decide (default "" (embed_url embed) ∈ urls))
        then true
        else false
      else rich_embed_loop msg rest
  end.

Definition _has_rich_embed (msg : Message) : bool :=
  match embeds msg with
  | [] => false
  | _ => rich_embed_loop msg (embeds msg)
  end.

(** [get_name_matches] *)
Fixpoint name_matches_loop (patterns : list string) (name : string) : list ReMatch :=
  match patterns with
  | [] => []
  | pattern :: rest =>
      match re_search pattern name with
      | Some m => m :: name_matches_loop rest name
      | None => name_matches_loop rest name
      end
  end.

Definition get_name_matches (name : string) : list ReMatch :=
  name_matches_loop WATCHLIST_PATTERNS name.

(** *** The table of filters *)

Inductive MatcherArg :=
| ArgText (text : string)
| ArgMessage (msg : Message).

(** One value of [self.filters]; the last three keys are missing from
    some entries. *)
Record FilterEntry := {
  enabled : bool;
  function : MatcherArg -> M MatchValue;
  type : string;
  content_only : bool;
  user_notification : option bool;
  notification_msg : option string;
  schedule_deletion : option bool
}.

(** a function of the text, which fails on anything else, and a function
    of the message, which fails on a [str] *)
Definition on_text (f : string -> M MatchValue) (arg : MatcherArg) : M MatchValue :=
  match arg with
  | ArgText text => f text
  | ArgMessage _ => raise TypeError
  end.

Definition on_message_arg (f : Message -> M MatchValue) (arg : MatcherArg)
  : M MatchValue :=
  match arg with
  | ArgMessage msg => f msg
  | ArgText _ => raise (AttributeError "embeds")
  end.

Definition staff_mistake_str : string :=
  "If you believe this was a mistake, please let staff know!".

(** New line of the notification text of [filter_invites] *)
Definition nl : string := String (ascii_of_nat 10) "".

(** [self.filters] as [__init__] builds it, in the order of the dict.
    [_has_zalgo] looks for code points above those of this string model,
    and [_has_watchlist_words] and [_has_watchlist_tokens] are not defined
    in the file: the three are taken as they come. *)
Definition filters (_has_zalgo _has_watchlist_words _has_watchlist_tokens
                    : string -> M MatchValue)
  : list (string * FilterEntry) :=
  [ ("filter_zalgo",
     {| enabled := filter_zalgo cfg;
        function := on_text _has_zalgo;
        type := "filter";
        content_only := true;
        user_notification := Some (notify_user_zalgo cfg);
        notification_msg := Some
          ("Your post has been removed for abusing Unicode character rendering (aka Zalgo text). "
           +:+ staff_mistake_str);
        schedule_deletion := Some false |});
    ("filter_invites",
     {| enabled := filter_invites cfg;
        function := on_text _has_invites;
        type := "filter";
        content_only := true;
        user_notification := Some (notify_user_invites cfg);
        notification_msg := Some
          ("Per Rule 6, your invite link has been removed. " +:+ staff_mistake_str
           +:+ nl +:+ nl
           +:+ "Our server rules can be found here: <https://pythondiscord.com/pages/rules>");
        schedule_deletion := Some false |});
    ("filter_domains",
     {| enabled := filter_domains cfg;
        function := on_text (fun text => ret (_has_urls text));
        type := "filter";
        content_only := true;
        user_notification := Some (notify_user_domains cfg);
        notification_msg := Some
          ("Your URL has been removed because it matched a blacklisted domain. "
           +:+ staff_mistake_str);
        schedule_deletion := Some false |});
    ("watch_regex",
     {| enabled := watch_regex cfg;
        function := on_text (fun text => ret (_has_watch_regex_match text));
        type := "watchlist";
        content_only := true;
        user_notification := None;
        notification_msg := None;
        schedule_deletion := None |});
    ("watch_rich_embeds",
     {| enabled := watch_rich_embeds cfg;
        function := on_message_arg (fun msg => ret (VBool (_has_rich_embed msg)));
        type := "watchlist";
        content_only := false;
        user_notification := None;
        notification_msg := None;
        schedule_deletion := Some false |});
    ("watch_words",
     {| enabled := watch_words cfg;
        function := on_text _has_watchlist_words;
        type := "watchlist";
        content_only := true;
        user_notification := None;
        notification_msg := None;
        schedule_deletion := Some true |});
    ("watch_tokens",
     {| enabled := watch_tokens cfg;
        function := on_text _has_watchlist_tokens;
        type := "watchlist";
        content_only := true;
        user_notification := None;
        notification_msg := None;
        schedule_deletion := Some true |}) ].

(** *** [notify_member] *)

Definition notify_member (filtered_member : Author) (reason : string) (channel : Channel)
  : M unit :=
  try_except (call env (SendDM (author_id filtered_member) reason)) is_Forbidden
    (call env (SendChannel (channel_id channel)
                 (mention filtered_member +:+ " " +:+ reason))).

(** *** [_filter_message] *)

(** How one turn of the loop over [self.filters] ends *)
Inductive Ctl := Next | Break | Return.

(** the double trigger check: [filter_name == "watch_rich_embeds"] and
    [delta is not None and delta < 100] *)
Definition double_trigger (filter_name : string) (delta : option Z) : bool :=
  String.eqb filter_name "watch_rich_embeds"
  && match delta with
     | Some d => d <? 100
     | None => false
     end.

Definition is_private (msg : Message) : bool :=
  match channel_type (channel msg) with
  | ChPrivate => true
  | _ => false
  end.

(** The branch of a filter outside DMs: [false] when the message was
    already gone and the method returned. *)
Definition delete_and_notify (msg : Message) (_filter : FilterEntry) : M bool :=
  let* deleted :=
    try_except (let* _ := call env (DeleteMessage (msg_id msg)) in ret true)
               is_NotFound (ret false) in
  if deleted then
    let* notify := getitem (user_notification _filter) "user_notification" in
    let* _ :=
      if notify then
        let* reason := getitem (notification_msg _filter) "notification_msg" in
        notify_member (author msg) reason (channel msg)
      else ret tt in
    ret true
  else ret false.

Definition schedule_offensive (msg : Message) : M unit :=
  let data := {| om_id := msg_id msg;
                 om_channel_id := channel_id (channel msg);
                 delete_date := created_at msg + OFFENSIVE_MSG_DELETE_TIME |} in
  let* _ := call env (ApiPost data) in
  call env (ScheduleTask (msg_id msg) data).

(** [match[0]] *)
Definition group0 (m : ReMatch) : string := Py.slice (m_start m) (m_end m) (m_string m).

Definition message_content_of (msg : Message) (filter_name : string) (match_ : MatchValue)
  : M string :=
  if String.eqb filter_name "watch_regex" then
    match match_ with
    | VMatch m =>
        let surroundings := Py.slice (m_start m - 10) (m_end m + 10) (m_string m) in
        ret ("**Match:** '" +:+ group0 m +:+ "'" +:+ nl
             +:+ "**Location:** '..." +:+ escape_markdown surroundings +:+ "...'" +:+ nl
             +:+ nl +:+ "**Original Message:**" +:+ nl +:+ escape_markdown (content msg))
    | _ => raise (AttributeError "string")
    end
  else ret (content msg).

Definition additional_embeds_of (msg : Message) (filter_name : string) (match_ : MatchValue)
  : M (Extra * option string) :=
  if String.eqb filter_name "filter_invites"
     && negb (is_True match_) then
    match match_ with
    | VDict d => ret (InviteEmbeds d, Some "For the following guild(s):")
    | _ => raise (AttributeError "items")
    end
  else if String.eqb filter_name "watch_rich_embeds" then
    ret (MessageEmbeds (embeds msg), Some "With the following embed(s):")
  else ret (NoExtra, None).

(** The body of [if match:] *)
Definition on_match (msg : Message) (filter_name : string) (_filter : FilterEntry)
                    (match_ : MatchValue) : M Ctl :=
  let* go :=
    if String.eqb (type _filter) "filter" && negb (is_private msg)
    then delete_and_notify msg _filter
    else ret true in
  if negb go then ret Return
  else
    let* sched := getitem (schedule_deletion _filter) "schedule_deletion" in
    let* _ := if sched && negb (is_private msg) then schedule_offensive msg else ret tt in
    let channel_str :=
      if is_private msg then "via DM" else "in " +:+ channel_mention (channel msg) in
    let* message_content := message_content_of msg filter_name match_ in
    let message :=
      "The " +:+ filter_name +:+ " " +:+ type _filter +:+ " was triggered "
      +:+ "by **" +:+ author_str (author msg) +:+ "** "
      +:+ "(`" +:+ pretty (author_id (author msg)) +:+ "`) " +:+ channel_str
      +:+ " with [the following message](" +:+ jump_url msg +:+ "):" +:+ nl +:+ nl
      +:+ message_content in
    let* _ := call env (StatsIncr ("filters." +:+ filter_name)) in
    let* extra := additional_embeds_of msg filter_name match_ in
    let* _ := call env (SendLog (Py.title (type _filter) +:+ " triggered!") message
                          (ping_everyone cfg) extra.1 extra.2) in
    ret Break.

(** What a turn of the loop does, in order: it calls the filter function,
    the function makes its calls, and the body of [if match:] makes its
    own. *)
Inductive Step :=
| Evaluate                       (* [await _filter["function"](...)] *)
| Matching (a : Action)          (* a call made inside the filter function *)
| Acting (a : Action).           (* a call made by the body of [if match:] *)

(** [_filter["function"](msg.content)] or [_filter["function"](msg)] *)
Definition matcher_result (msg : Message) (_filter : FilterEntry) : M MatchValue :=
  if content_only _filter then function _filter (ArgText (content msg))
  else function _filter (ArgMessage msg).

(** One turn of [for filter_name, _filter in self.filters.items()] *)
Definition filter_body (msg : Message) (delta : option Z)
                       (filter_name : string) (_filter : FilterEntry)
  : list Step * Result Ctl :=
  if negb (enabled _filter) then ([], Ok Next)
  else if double_trigger filter_name delta then ([], Ok Next)
  else
    let '(tm, rm) := matcher_result msg _filter in
    match rm with
    | Raise e => (Evaluate :: map Matching tm, Raise e)
    | Ok match_ =>
        if truthy match_ then
          let '(ta, ra) := on_match msg filter_name _filter match_ in
          (Evaluate :: map Matching tm ++ map Acting ta, ra)
        else (Evaluate :: map Matching tm, Ok Next)
    end.

(** The loop; every step is recorded with the name of the filter whose
    turn makes it. [break] and [return] both end the method. *)
Fixpoint filter_loop (msg : Message) (delta : option Z) (items : list (string * FilterEntry))
  : list (string * Step) * Result unit :=
  match items with
  | [] => ([], Ok tt)
  | (filter_name, _filter) :: rest =>
      let '(t, r) := filter_body msg delta filter_name _filter in
      let t := map (pair filter_name) t in
      match r with
      | Ok Next => let '(t', r') := filter_loop msg delta rest in (t ++ t', r')
      | Ok Break => (t, Ok tt)
      | Ok Return => (t, Ok tt)
      | Raise e => (t, Raise e)
      end
  end.

(** [filter_message]: the message is not exempt *)
Definition filter_message (msg : Message) : bool :=
  let role_whitelisted :=
    is_Member (author msg)
    && existsb (fun role => bool_decide (role ∈ role_whitelist cfg)) (role_ids (author msg)) in
  negb (bool_decide (channel_id (channel msg) ∈ channel_whitelist cfg))
  && negb role_whitelisted
  && negb (bot (author msg)).

Definition _filter_message (self_filters : list (string * FilterEntry))
                           (msg : Message) (delta : option Z)
  : list (string * Step) * Result unit :=
  if filter_message msg then filter_loop msg delta self_filters
  else ([], Ok tt).

(** *** The username check *)

(** [dt.timestamp()] on a naive [datetime]: Python reads the value as the
    wall clock of the host's zone, so the stamp is the reading less the
    offset of that zone. The stamp is kept in microseconds. *)
Definition timestamp (dt : Z) : Z := dt - local_utcoffset env dt.

(** [datetime.utcfromtimestamp(stamp)]: the naive UTC reading of the stamp,
    whatever the zone of the host. It is the inverse of [timestamp] on a host
    whose zone is UTC, and on no other. *)
Definition utcfromtimestamp (stamp : Z) : Z := stamp.

(** [check_send_alert]; a stamp of zero is falsy like an absent one *)
Definition check_send_alert (name_alerts : gmap Z Z) (clock : Z) (member : Author)
  : M bool :=
  let* _ := call env (CacheGet (author_id member)) in
  match name_alerts !! author_id member with
  | Some last_alert =>
      if last_alert =? 0 then ret true
      else
        let last_alert := utcfromtimestamp last_alert in
        let* now := lift (utcnow_of (Ok datetime) clock) in
        if now - timedelta_days DAYS_BETWEEN_ALERTS <? last_alert then ret false
        else ret true
  | None => ret true
  end.

(** [check_bad_words_in_name], run under [name_lock] from start to end:
    the cache after it. [clock] is read by [check_send_alert] and [clock']
    when the alert has been sent. *)
Definition check_bad_words_in_name (name_alerts : gmap Z Z) (clock clock' : Z)
                                   (member : Author) : M (gmap Z Z) :=
  let matches := get_name_matches (display_name member) in
  if bool_decide (matches = []) then ret name_alerts
  else
    let* send := check_send_alert name_alerts clock member in
    if negb send then ret name_alerts
    else
      let log_string :=
        "**User:** " +:+ mention member +:+ " (`" +:+ pretty (author_id member) +:+ "`)" +:+ nl
        +:+ "**Display Name:** " +:+ display_name member +:+ nl
        +:+ "**Bad Matches:** " +:+ Py.join_sep ", " (map group0 matches) in
      let* _ := call env (SendLog "Username filtering alert" log_string false NoExtra None) in
      let* now := lift (utcnow_of (Ok datetime) clock') in
      let* _ := call env (CacheSet (author_id member) (timestamp now)) in
      ret (<[author_id member := timestamp now]> name_alerts).

(** *** The listeners *)

(** [on_message]: the run of the filter, then the username check when
    the filter did not raise *)
Definition on_message (self_filters : list (string * FilterEntry))
                      (name_alerts : gmap Z Z) (clock clock' : Z) (msg : Message)
  : (list (string * Step) * Result unit) * option (M (gmap Z Z)) :=
  let run := _filter_message self_filters msg None in
  (run,
   match run.2 with
   | Ok _ => Some (check_bad_words_in_name name_alerts clock clock' (author msg))
   | Raise _ => None
   end).

(** [relativedelta(dt1, dt2).microseconds]: the microsecond field of the
    normalised difference, and zero when [dt1] is [None] *)
Definition relativedelta_microseconds (dt1 dt2 : option Z) : Z :=
  match dt1, dt2 with
  | Some a, Some b => (a - b) mod 1000000
  | _, _ => 0
  end.

Definition edit_delta (before after : Message) : Z :=
  match edited_at before with
  | None => relativedelta_microseconds (edited_at after) (Some (created_at before))
  | Some _ => relativedelta_microseconds (edited_at after) (edited_at before)
  end.

Definition on_message_edit (self_filters : list (string * FilterEntry))
                           (before after : Message)
  : list (string * Step) * Result unit :=
  let delta := edit_delta before after in
  _filter_message self_filters after (Some delta).

(** *** Deferred deletion *)

(** [delete_offensive_msg]; both handlers only log *)
Definition delete_offensive_msg (msg : OffensiveMsg) : M unit :=
  let* _ :=
    try_except
      (if get_channel env (om_channel_id msg) then
         let* _ := call env (FetchMessage (om_channel_id msg) (om_id msg)) in
         call env (DeleteMessage (om_id msg))
       else ret tt)
      (fun e => is_NotFound e || is_HTTPException e) (ret tt) in
  call env (ApiDelete (om_id msg)).

(** [_scheduled_task]: the clock reading at which [delete_offensive_msg]
    is entered, and its run *)
Definition _scheduled_task (late : N) (clock : Z) (msg : OffensiveMsg)
  : Result (Z * M unit) :=
  let delete_at := delete_date msg in
  match Time.wait_until late clock delete_at None with
  | Ok resumed => Ok (resumed, delete_offensive_msg msg)
  | Raise e => Raise e
  end.

(** the loop of [reschedule_offensive_msg_deletion] *)
Fixpoint reschedule_loop (now : Z) (response : list OffensiveMsg) : M unit :=
  match response with
  | [] => ret tt
  | msg :: rest =>
      let delete_at := delete_date msg in
      let* _ :=
        if delete_at <? now then delete_offensive_msg msg
        else call env (ScheduleTask (om_id msg) msg) in
      reschedule_loop now rest
  end.

(** [reschedule_offensive_msg_deletion]; [wait_until_ready] only delays
    it. The clock is named [datetime.datetime.utcnow()] here. *)
Definition reschedule_offensive_msg_deletion (clock : Z) : M unit :=
  let* _ := call env ApiGet in
  let response := offensive_messages env in
  let* now := lift (utcnow_of (attr_datetime datetime) clock) in
  reschedule_loop now response.

End Filtering.

(** * Counting calls in a trace *)

Fixpoint count_calls (p : Action -> bool) (t : list Action) : nat :=
  match t with
  | [] => O
  | a :: t' => ((if p a then 1 else 0) + count_calls p t')%nat
  end.

Definition is_lookup (code : string) (a : Action) : bool :=
  match a with
  | GetInvite c => String.eqb c code
  | _ => false
  end.

Definition is_alert (a : Action) : bool :=
  match a with
  | SendLog _ _ _ _ _ => true
  | _ => false
  end.

Definition is_cache_write (a : Action) : bool :=
  match a with
  | CacheSet _ _ => true
  | _ => false
  end.

(** the function of the filter [name] was called *)
Definition evaluates (name : string) (t : list (string * Step)) : bool :=
  existsb (fun e => match e with
                    | (n, Evaluate) => String.eqb n name
                    | _ => false
                    end) t.

(** the calls of the body of [if match:], with the filter that made them *)
Fixpoint actions_of (t : list (string * Step)) : list (string * Action) :=
  match t with
  | [] => []
  | (n, Acting a) :: t' => (n, a) :: actions_of t'
  | _ :: t' => actions_of t'
  end.

(** * Turns of the loop *)

(** a turn that does not fall through to the next filter *)
Definition ends (m : M Ctl) : Prop := m.2 <> Ok Next.

(** the turn of a filter falls through: disabled, held back, or no match *)
Definition passes (escape_markdown : string -> string) (cfg : FilterConfig) (env : Env)
    (msg : Message) (delta : option Z) (e : string * FilterEntry) : Prop :=
  (filter_body escape_markdown cfg env msg delta e.1 e.2).2 = Ok Next.

(** * Sample configuration, world and events *)

Module Sample.

Definition escape (s : string) : string := s.

(** a search that finds its pattern as a literal, whatever the case *)
Fixpoint index_from (pattern text : string) (i : nat) : option nat :=
  match text with
  | EmptyString => if Py.starts_with true pattern text then Some i else None
  | String _ rest =>
      if Py.starts_with true pattern text then Some i
      else index_from pattern rest (S i)
  end.

Definition literal_search (pattern text : string) : option ReMatch :=
  i ← index_from pattern text O;
  Some {| m_string := text; m_start := i; m_end := i + String.length pattern |}.

(** every filter on, no watchlist pattern, guild 42 allowed *)
Definition cfg : FilterConfig :=
  {| filter_zalgo := true; filter_invites := true; filter_domains := true;
     watch_regex := true; watch_rich_embeds := true; watch_words := true;
     watch_tokens := true;
     notify_user_zalgo := true; notify_user_invites := true;
     notify_user_domains := true;
     ping_everyone := false;
     offensive_msg_delete_days := 7;
     guild_invite_whitelist := [42];
     domain_blacklist := ["evil.test"];
     word_watchlist := [];
     token_watchlist := [];
     channel_whitelist := [1];
     role_whitelist := [2] |}.

(** the same with one token on the watchlist *)
Definition cfg_names : FilterConfig :=
  {| filter_zalgo := true; filter_invites := true; filter_domains := true;
     watch_regex := true; watch_rich_embeds := true; watch_words := true;
     watch_tokens := true;
     notify_user_zalgo := true; notify_user_invites := true;
     notify_user_domains := true;
     ping_everyone := false;
     offensive_msg_delete_days := 7;
     guild_invite_whitelist := [42];
     domain_blacklist := ["evil.test"];
     word_watchlist := [];
     token_watchlist := ["heck"];
     channel_whitelist := [1];
     role_whitelist := [2] |}.

(** invite [abc] leads to the allowed guild 42, [xyz] to guild 7, any
    other code to no guild *)
Definition guild_of (code : string) : option InviteResponse :=
  if String.eqb code "abc" then
    Some {| guild_id := 42; guild_name := "home"; guild_icon := "a1";
            approximate_member_count := 10; approximate_presence_count := 3 |}
  else if String.eqb code "xyz" then
    Some {| guild_id := 7; guild_name := "other"; guild_icon := "b2";
            approximate_member_count := 20; approximate_presence_count := 5 |}
  else None.

(** the site holds one record due at 1000 and one due at 9000000 *)
Definition pending : list OffensiveMsg :=
  [ {| om_id := 11; om_channel_id := 5; delete_date := 1000 |};
    {| om_id := 12; om_channel_id := 5; delete_date := 9000000 |} ].

(** every call goes through, on a host in UTC *)
Definition env : Env :=
  {| raises := fun _ => None;
     invite_api := guild_of;
     get_channel := fun _ => true;
     offensive_messages := pending;
     local_utcoffset := fun _ => 0 |}.

(** the message is gone when the cog tries to delete it *)
Definition env_gone : Env :=
  {| raises := fun a => match a with DeleteMessage _ => Some NotFound | _ => None end;
     invite_api := guild_of;
     get_channel := fun _ => true;
     offensive_messages := pending;
     local_utcoffset := fun _ => 0 |}.

Definition never (text : string) : M MatchValue := ret (VBool false).

Definition has_heck (text : string) : M MatchValue :=
  ret (VBool (Py.contains "heck" text)).

(** [self.filters] with a word filter that knows one word *)
Definition table (e : Env) : list (string * FilterEntry) :=
  filters literal_search cfg e never has_heck never.

Definition alice : Author :=
  {| author_id := 100; is_Member := true; role_ids := [3]; bot := false;
     author_str := "alice#0001"; mention := "<@100>"; display_name := "what the heck" |}.

Definition general : Channel :=
  {| channel_id := 5; channel_type := ChText; channel_mention := "<#5>" |}.

Definition rich_no_url : Embed := {| embed_type := "rich"; embed_url := None |}.

Definition link_preview : Embed :=
  {| embed_type := "rich"; embed_url := Some "https://x.test/a" |}.

(** a message with a watched word and an embed of its own, as created *)
Definition posted : Message :=
  {| msg_id := 11; content := "what the heck"; embeds := [rich_no_url];
     author := alice; channel := general;
     created_at := 0; edited_at := None; jump_url := "https://discord.test/11" |}.

(** the same message edited 1.00005 seconds after it was created *)
Definition edited : Message :=
  {| msg_id := 11; content := "what the heck"; embeds := [rich_no_url];
     author := alice; channel := general;
     created_at := 0; edited_at := Some 1000050; jump_url := "https://discord.test/11" |}.

(** the same message when the platform sends the edit event 50
    microseconds after the creation *)
Definition edited_at_once : Message :=
  {| msg_id := 11; content := "what the heck"; embeds := [rich_no_url];
     author := alice; channel := general;
     created_at := 0; edited_at := Some 50; jump_url := "https://discord.test/11" |}.

(** a link with its preview, then an embed of the author's own *)
Definition two_embeds : Message :=
  {| msg_id := 12; content := "see https://x.test/a"; embeds := [link_preview; rich_no_url];
     author := alice; channel := general;
     created_at := 0; edited_at := None; jump_url := "https://discord.test/12" |}.

(** an invite to a guild that is not allowed *)
Definition invite_post : Message :=
  {| msg_id := 13; content := "join discord.gg/xyz"; embeds := [];
     author := alice; channel := general;
     created_at := 0; edited_at := None; jump_url := "https://discord.test/13" |}.

End Sample.

(** * Vocabulary of the further properties *)

(** the units of a duration down to the one named [precision], all of them
    when none has that name *)
Fixpoint upto_precision (precision : string) (units : list (string * Z))
  : list (string * Z) :=
  match units with
  | [] => []
  | (unit, value) :: rest =>
      (unit, value)
      :: (if String.eqb unit precision then [] else upto_precision precision rest)
  end.

(** the strings of the units that are not zero *)
Definition nonzero_units (units : list (string * Z)) : list string :=
  map (fun uv => Time._stringify_time_unit uv.2 uv.1)
      (List.filter (fun uv => negb (uv.2 =? 0)) units).

(** the units [humanize_delta] shows: those that are not zero, from the
    years down to the precision, and no more than [max_units] of them *)
Definition shown_units (delta : Time.relativedelta) (precision : string) (max_units : Z)
  : list string :=
  take (Z.to_nat max_units)
       (nonzero_units (upto_precision precision (Time.units_of delta))).

(** the text [_has_watch_regex_match] searches: the expansion when there
    is a spoiler, the text itself otherwise *)
Definition searched_text (text : string) : string :=
  if Re.SPOILER_RE_search text then expand_spoilers text else text.

(** the codes [_has_invites] finds in a text, in order *)
Definition invites_of (text : string) : list string :=
  Re.INVITE_RE_findall (Py.remove_char "\" text).

(** the entry [_has_invites] keeps of a guild *)
Definition info_of (response : InviteResponse) : InviteInfo :=
  {| name := guild_name response;
     icon := "https://cdn.discordapp.com/icons/" +:+ pretty (guild_id response) +:+ "/"
             +:+ guild_icon response +:+ ".png?size=512";
     members := approximate_member_count response;
     active := approximate_presence_count response |}.

(** an entry of [invite_data] is the one of a code of the text whose guild
    is not allowed *)
Definition reported_invite (cfg : FilterConfig) (env : Env) (codes : list string)
    (entry : string * InviteInfo) : Prop :=
  entry.1 ∈ codes
  /\ exists response,
       invite_api env entry.1 = Some response
       /\ (guild_id response ∉ guild_invite_whitelist cfg)
       /\ entry.2 = info_of response.

(** the record [_filter_message] posts to the site for a message *)
Definition offensive_record (cfg : FilterConfig) (msg : Message) : OffensiveMsg :=
  {| om_id := msg_id msg;
     om_channel_id := channel_id (channel msg);
     delete_date := created_at msg + timedelta_days (offensive_msg_delete_days cfg) |}.

(** what a call of the body of [if match:] says of the filter whose turn
    it is and of the message *)
Definition allowed_action (cfg : FilterConfig) (msg : Message) (f : FilterEntry)
    (a : Action) : Prop :=
  match a with
  | DeleteMessage id =>
      id = msg_id msg /\ type f = "filter" /\ is_private msg = false
  | SendDM member _ =>
      member = author_id (author msg) /\ type f = "filter" /\ is_private msg = false
      /\ user_notification f = Some true
  | SendChannel chan _ =>
      chan = channel_id (channel msg) /\ type f = "filter" /\ is_private msg = false
      /\ user_notification f = Some true
  | ApiPost d =>
      d = offensive_record cfg msg /\ schedule_deletion f = Some true
      /\ is_private msg = false
  | ScheduleTask id d =>
      id = msg_id msg /\ d = offensive_record cfg msg
      /\ schedule_deletion f = Some true /\ is_private msg = false
  | StatsIncr _ => True
  | SendLog _ _ _ _ _ => True
  | _ => False
  end.

(** a report: the counter of the filter or the entry of the mod log *)
Definition is_report (a : Action) : bool :=
  match a with
  | StatsIncr _ => true
  | SendLog _ _ _ _ _ => true
  | _ => false
  end.

Definition is_delete (a : Action) : bool :=
  match a with
  | DeleteMessage _ => true
  | _ => false
  end.

Definition is_post (a : Action) : bool :=
  match a with
  | ApiPost _ => true
  | _ => false
  end.

Definition is_schedule (a : Action) : bool :=
  match a with
  | ScheduleTask _ _ => true
  | _ => false
  end.

Definition is_stats (a : Action) : bool :=
  match a with
  | StatsIncr _ => true
  | _ => false
  end.

(** the calls of the bodies of [if match:] in a run, without the names *)
Definition run_actions (t : list (string * Step)) : list Action :=
  map snd (actions_of t).

Definition is_dm (a : Action) : bool :=
  match a with
  | SendDM _ _ => true
  | _ => false
  end.

Definition is_channel_notice (a : Action) : bool :=
  match a with
  | SendChannel _ _ => true
  | _ => false
  end.

(** the calls [t] are of the kinds [kinds], in that order, each kind at
    most once *)
Fixpoint follows (kinds : list (Action -> bool)) (t : list Action) : bool :=
  match kinds with
  | [] => bool_decide (t = [])
  | kind :: kinds' =>
      match t with
      | [] => true
      | a :: t' => if kind a then follows kinds' t' else follows kinds' t
      end
  end.

(** the order of the calls of the body of [if match:] *)
Definition dispatch_order : list (Action -> bool) :=
  [is_delete; is_dm; is_channel_notice; is_post; is_schedule; is_stats; is_alert].

(** * Further sample events *)

Module Cases.

Definition direct : Channel :=
  {| channel_id := 9; channel_type := ChPrivate; channel_mention := "<#9>" |}.

(** the invite of the sample, sent to the bot in a DM *)
Definition invite_dm : Message :=
  {| msg_id := 14; content := "join discord.gg/xyz"; embeds := [];
     author := Sample.alice; channel := direct;
     created_at := 0; edited_at := None; jump_url := "https://discord.test/14" |}.

(** [self.filters] with the token ["heck"] on the watchlist *)
Definition table_names : list (string * FilterEntry) :=
  filters Sample.literal_search Sample.cfg_names Sample.env
    Sample.never Sample.never Sample.never.

(** a bot account with a watched display name *)
Definition robot : Author :=
  {| author_id := 200; is_Member := true; role_ids := []; bot := true;
     author_str := "robot#0002"; mention := "<@200>"; display_name := "heck bot" |}.

Definition robot_post : Message :=
  {| msg_id := 15; content := "beep"; embeds := [];
     author := robot; channel := Sample.general;
     created_at := 0; edited_at := None; jump_url := "https://discord.test/15" |}.

(** the mod log is down *)
Definition env_log_down : Env :=
  {| raises := fun a => match a with
                        | SendLog _ _ _ _ _ => Some HTTPException
                        | _ => None
                        end;
     invite_api := Sample.guild_of;
     get_channel := fun _ => true;
     offensive_messages := Sample.pending;
     local_utcoffset := fun _ => 0 |}.

(** a host two hours east of UTC, every call going through *)
Definition east : Env :=
  {| raises := fun _ => None;
     invite_api := Sample.guild_of;
     get_channel := fun _ => true;
     offensive_messages := Sample.pending;
     local_utcoffset := fun _ => 2 * 3600 * 1000000 |}.

(** noon UTC on the first of June 2020 *)
Definition noon : Z := 1591012800 * 1000000.

End Cases.

(** a call of the username check is about the member it checks *)
Definition concerns (member : Author) (a : Action) : Prop :=
  match a with
  | CacheGet user => user = author_id member
  | CacheSet user _ => user = author_id member
  | SendLog _ _ _ _ _ => True
  | _ => False
  end.

(** the author or the place makes a message exempt *)
Definition exempt (cfg : FilterConfig) (msg : Message) : Prop :=
  channel_id (channel msg) ∈ channel_whitelist cfg
  \/ (is_Member (author msg) = true
      /\ exists role, role ∈ role_ids (author msg) /\ role ∈ role_whitelist cfg)
  \/ bot (author msg) = true.

(** a code point below 128 *)
Definition is_ascii7 (c : ascii) : bool :=
  match c with
  | Ascii _ _ _ _ _ _ _ b7 => negb b7
  end.

Fixpoint all_ascii7 (s : string) : bool :=
  match s with
  | EmptyString => true
  | String c rest => is_ascii7 c && all_ascii7 rest
  end.

(** what a notice to the author says of the world: the message was deleted
    before it, its text is the one of the filter, and the notice in the
    channel follows a DM that was refused *)
Definition notice_in_turn (env : Env) (msg : Message) (f : FilterEntry) (a : Action)
  : Prop :=
  match a with
  | SendDM _ reason =>
      notification_msg f = Some reason
      /\ raises env (DeleteMessage (msg_id msg)) = None
  | SendChannel _ text =>
      exists reason,
        notification_msg f = Some reason
        /\ text = mention (author msg) +:+ " " +:+ reason
        /\ raises env (SendDM (author_id (author msg)) reason) = Some Forbidden
        /\ raises env (DeleteMessage (msg_id msg)) = None
  | _ => True
  end.

(** * Claims the code does not meet, as they are stated *)

(** the function of the filter answers with a match on the message *)
Definition would_match (msg : Message) (_filter : FilterEntry) : bool :=
  match (matcher_result msg _filter).2 with
  | Ok v => truthy v
  | Raise _ => false
  end.

(** C1, last clause: of two enabled rules whose functions both answer with
    a match on the message, the one declared second takes no action. *)
Definition first_declared_wins (escape_markdown : string -> string) (cfg : FilterConfig)
    (env : Env) (self_filters : list (string * FilterEntry))
    (msg : Message) (delta : option Z) : Prop :=
  forall pre n1 f1 mid n2 f2 post a,
    self_filters = pre ++ (n1, f1) :: mid ++ (n2, f2) :: post ->
    enabled f1 = true -> enabled f2 = true ->
    would_match msg f1 = true -> would_match msg f2 = true ->
    (n2, Acting a) ∉ (_filter_message escape_markdown cfg env self_filters msg delta).1.

(** C2: a task whose delete-at time is still to come enters the deletion at
    that time or later. *)
Definition never_early (env : Env) (late : N) (clock : Z) (msg : OffensiveMsg) : Prop :=
  clock < delete_date msg ->
  exists resumed run,
    _scheduled_task env late clock msg = Ok (resumed, run)
    /\ delete_date msg <= resumed.

(** C6: the matcher as the sentence has it, true when some embed is rich
    and has no URL or a URL that is not among those of the text. *)
Definition spec_has_rich_embed (msg : Message) : bool :=
  existsb
    (fun embed =>
       String.eqb (embed_type embed) "rich"
       && (url_missing (embed_url embed)
           || negb (bool_decide (default "" (embed_url embed)
                                 ∈ Re.URL_RE_findall (content msg)))))
    (embeds msg).


(** C9, second half: text wrapped in a spoiler shows up outside every
    spoiler span of the expanded string. *)
Definition spoiler_text_exposed (text needle : string) : Prop :=
  occurs_outside_spoilers needle (expand_spoilers text) = true.

(** C10, last clause: the function of an enabled rich embed rule is called
    on every new message. *)
Definition always_evaluated_when_new (escape_markdown : string -> string)
    (re_search : string -> string -> option ReMatch) (cfg : FilterConfig) (env : Env)
    (self_filters : list (string * FilterEntry)) (msg : Message) : Prop :=
  forall f name_alerts clock clock',
    ("watch_rich_embeds", f) ∈ self_filters ->
    enabled f = true ->
    evaluates "watch_rich_embeds"
      (on_message escape_markdown re_search cfg env self_filters
         name_alerts clock clock' msg).1.1 = true.

(** * Properties *)

(** ** Strings *)

Lemma append_nil_l (s : string) : "" +:+ s = s.
Proof. reflexivity. Qed.

Lemma append_cons (c : ascii) (s t : string) : String c s +:+ t = String c (s +:+ t).
Proof. reflexivity. Qed.

Lemma append_nil_r (s : string) : s +:+ "" = s.
Proof.
  induction s as [|c s IH]; [reflexivity|].
  now rewrite append_cons, IH.
Qed.

Lemma append_assoc (a b c : string) : (a +:+ b) +:+ c = a +:+ (b +:+ c).
Proof.
  induction a as [|x a IH]; [reflexivity|].
  now rewrite !append_cons, IH.
Qed.

Lemma string_take_drop (n : nat) (s : string) :
  Py.string_take n s +:+ Py.string_drop n s = s.
Proof.
  revert s; induction n as [|n IH]; intros [|c s]; simpl; try reflexivity.
  now rewrite append_cons, IH.
Qed.

Lemma join_app (xs ys : list string) :
  Py.join (xs ++ ys) = Py.join xs +:+ Py.join ys.
Proof.
  induction xs as [|x xs IH]; simpl; [reflexivity|].
  now rewrite IH, append_assoc.
Qed.

(** ** [SPOILER_RE.split] loses nothing *)

Lemma starts_with_length (fold : bool) (prefix s : string) :
  Py.starts_with fold prefix s = true -> (String.length prefix <= String.length s)%nat.
Proof.
  revert s; induction prefix as [|p prefix IH]; intros s H.
  - cbn. lia.
  - destruct s as [|c s]; cbn [Py.starts_with] in H; [discriminate|].
    apply andb_true_iff in H as [_ H]. apply IH in H. cbn [String.length]. lia.
Qed.

Lemma find_bars_bound (s : string) (k : nat) :
  Re.find_bars s = Some k -> (k + 2 <= String.length s)%nat.
Proof.
  revert k; induction s as [|c s IH]; intros k; cbn [Re.find_bars]; [discriminate|].
  destruct (Py.starts_with false "||" (String c s)) eqn:E.
  - intros [= <-]. apply starts_with_length in E. exact E.
  - destruct (Re.find_bars s) as [j|]; cbn [option_map]; [|discriminate].
    intros [= <-]. specialize (IH j eq_refl). cbn [String.length]. lia.
Qed.

Lemma SPOILER_RE_match_bound (s : string) (n : nat) :
  Re.SPOILER_RE_match s = Some n -> (5 <= n <= String.length s)%nat.
Proof.
  unfold Re.SPOILER_RE_match.
  destruct s as [|a [|b [|c rest]]]; try discriminate.
  destruct (Ascii.eqb a "|" && Ascii.eqb b "|"); [|discriminate].
  destruct (Re.find_bars rest) as [k|] eqn:E; [|discriminate].
  intros [= <-]. apply find_bars_bound in E. cbn [String.length]. lia.
Qed.

Lemma split_from_join (s : string) :
  forall (skip : nat) (seg : string),
    (skip <= String.length s)%nat ->
    Py.join (Re.split_from s skip seg) = seg +:+ Py.string_drop skip s.
Proof.
  induction s as [|c rest IH]; intros skip seg Hskip.
  - simpl in Hskip. assert (skip = O) as -> by lia. simpl.
    now rewrite append_nil_r.
  - destruct skip as [|k].
    + cbn [Re.split_from].
      destruct (Re.SPOILER_RE_match (String c rest)) as [n|] eqn:E.
      * apply SPOILER_RE_match_bound in E.
        cbn [Py.join]. rewrite IH by (simpl in E; lia).
        destruct n as [|n]; [lia|].
        replace (S n - 1)%nat with n by lia.
        change (Py.string_drop n rest) with (Py.string_drop (S n) (String c rest)).
        now rewrite append_nil_l, string_take_drop.
      * rewrite IH by lia. simpl. now rewrite append_assoc.
    + cbn [Re.split_from]. rewrite IH by (simpl in Hskip; lia). reflexivity.
Qed.

Lemma SPOILER_RE_split_join (text : string) :
  Py.join (Re.SPOILER_RE_split text) = text.
Proof.
  unfold Re.SPOILER_RE_split. rewrite split_from_join by lia. reflexivity.
Qed.

(** C9, as stated, at ["a||b||c"]: after the expansion the letter [b]
    still stands between its two markers everywhere it occurs, so it is not
    found outside the spoiler spans of the result. *)
Lemma expand_spoilers_keeps_markers : ~ spoiler_text_exposed "a||b||c" "b".
Proof. unfold spoiler_text_exposed. vm_compute. discriminate. Qed.

(** C9, amended: [expand_spoilers] joins the even-indexed pieces of the
    split, then the odd-indexed ones, then all of them, and the last part is
    the text itself; the odd-indexed pieces are the spoilers with their
    markers, so ["a||b||c"] becomes ["ac||b||a||b||c"], where the text
    around the spoiler reads ["ac"] and [b] keeps its markers. *)
Theorem expand_spoilers_spec (text : string) :
  let split_text := Re.SPOILER_RE_split text in
  expand_spoilers text
  = Py.join (Py.slice_step2 0 split_text)
    +:+ Py.join (Py.slice_step2 1 split_text)
    +:+ Py.join split_text
  /\ Py.join split_text = text
  /\ Re.SPOILER_RE_split "a||b||c" = ["a"; "||b||"; "c"]
  /\ expand_spoilers "a||b||c" = "ac||b||a||b||c"
  /\ occurs_outside_spoilers "ac" (expand_spoilers "a||b||c") = true
  /\ occurs_outside_spoilers "b" (expand_spoilers "a||b||c") = false.
Proof.
  cbv zeta. split; [|split; [apply SPOILER_RE_split_join | repeat split]].
  unfold expand_spoilers. now rewrite !join_app.
Qed.

(** ** The rich embed matcher *)

Lemma rich_embed_loop_sound (msg : Message) (es : list Embed) :
  rich_embed_loop msg es = true ->
  existsb
    (fun embed =>
       String.eqb (embed_type embed) "rich"
       && (url_missing (embed_url embed)
           || negb (bool_decide (default "" (embed_url embed)
                                 ∈ Re.URL_RE_findall (content msg))))) es = true.
Proof.
  induction es as [|e es IH]; cbn [rich_embed_loop existsb]; [discriminate|].
  destruct (String.eqb (embed_type e) "rich"); cbn [andb orb].
  - destruct (url_missing (embed_url e)
              || negb (bool_decide (default "" (embed_url e)
                                    ∈ Re.URL_RE_findall (content msg))));
      [reflexivity | discriminate].
  - exact IH.
Qed.

(** What [_has_rich_embed] flags, the sentence flags too. *)
Lemma has_rich_embed_sound (msg : Message) :
  _has_rich_embed msg = true -> spec_has_rich_embed msg = true.
Proof.
  unfold _has_rich_embed, spec_has_rich_embed.
  destruct (embeds msg) as [|e es] eqn:E; [discriminate|].
  apply rich_embed_loop_sound.
Qed.

(** [_has_rich_embed] decides on the first rich embed alone. *)
Lemma has_rich_embed_first_rich (msg : Message) :
  _has_rich_embed msg
  = match List.find (fun embed => String.eqb (embed_type embed) "rich") (embeds msg) with
    | Some embed =>
        url_missing (embed_url embed)
        || negb (bool_decide (default "" (embed_url embed)
                              ∈ Re.URL_RE_findall (content msg)))
    | None => false
    end.
Proof.
  unfold _has_rich_embed.
  assert (H : forall es,
             rich_embed_loop msg es
             = match List.find (fun embed => String.eqb (embed_type embed) "rich") es with
               | Some embed =>
                   url_missing (embed_url embed)
                   || negb (bool_decide (default "" (embed_url embed)
                                         ∈ Re.URL_RE_findall (content msg)))
               | None => false
               end).
  { induction es as [|e es IH]; cbn [rich_embed_loop List.find]; [reflexivity|].
    destruct (String.eqb (embed_type e) "rich"); [|exact IH].
    now destruct (url_missing (embed_url e)
                  || negb (bool_decide (default "" (embed_url e)
                                        ∈ Re.URL_RE_findall (content msg)))). }
  destruct (embeds msg) as [|e es] eqn:E; [reflexivity|]. apply H.
Qed.

(** C6: on a message whose first rich embed is the preview of a link in
    the text and whose second rich embed has no URL, [_has_rich_embed]
    returns [False] at the first one, while the second one meets the
    condition of the sentence. *)
Theorem has_rich_embed_stops_at_first_rich :
  _has_rich_embed Sample.two_embeds = false
  /\ spec_has_rich_embed Sample.two_embeds = true.
Proof. split; vm_compute; reflexivity. Qed.

(** ** The invite scanner *)

Lemma count_calls_app (p : Action -> bool) (t t' : list Action) :
  count_calls p (t ++ t') = (count_calls p t + count_calls p t')%nat.
Proof. induction t as [|a t IH]; cbn [count_calls app]; [reflexivity | lia]. Qed.

Lemma dict_has_set_same {V : Type} (key : string) (v : V) (d : list (string * V)) :
  Py.dict_has key (Py.dict_set key v d) = true.
Proof.
  induction d as [|[k v'] d IH]; cbn [Py.dict_set].
  - unfold Py.dict_has. cbn. now rewrite String.eqb_refl.
  - destruct (String.eqb key k) eqn:E.
    + unfold Py.dict_has. cbn. now rewrite String.eqb_refl.
    + unfold Py.dict_has in *. cbn [existsb fst]. cbn [fst] in IH.
      rewrite IH. apply orb_true_r.
Qed.

Lemma dict_has_set_other {V : Type} (key key' : string) (v : V) (d : list (string * V)) :
  key <> key' ->
  Py.dict_has key (Py.dict_set key' v d) = Py.dict_has key d.
Proof.
  intros Hne. apply String.eqb_neq in Hne.
  induction d as [|[k v'] d IH]; cbn [Py.dict_set].
  - unfold Py.dict_has. cbn. now rewrite Hne.
  - destruct (String.eqb key' k) eqn:E.
    + apply String.eqb_eq in E as <-. unfold Py.dict_has. cbn. reflexivity.
    + unfold Py.dict_has in *. cbn [existsb fst]. now rewrite IH.
Qed.

(** A code that resolves to no guild, or to a guild that is not allowed, is
    looked up at most once, and not at all once it is in [invite_data]. *)
Lemma invites_loop_once (cfg : FilterConfig) (env : Env) (code : string) :
  match invite_api env code with
  | None => True
  | Some response => guild_id response ∉ guild_invite_whitelist cfg
  end ->
  forall invites invite_data,
    (count_calls (is_lookup code) (invites_loop cfg env invites invite_data).1
     <= if Py.dict_has code invite_data then 0 else 1)%nat.
Proof.
  intros Hcode. induction invites as [|invite rest IH]; intros data.
  - cbn. destruct (bool_decide (data = [])), (Py.dict_has code data); cbn; lia.
  - cbn [invites_loop].
    destruct (Py.dict_has invite data) eqn:Hin; [apply IH|].
    unfold bind, call.
    assert (Hhead : ((if is_lookup code (GetInvite invite) then 1 else 0)
                     <= if Py.dict_has code data then 0 else 1)%nat).
    { cbn [is_lookup]. destruct (String.eqb invite code) eqn:E; [|lia].
      apply String.eqb_eq in E as ->. rewrite Hin. lia. }
    destruct (raises env (GetInvite invite)) as [e|].
    { cbn [fst count_calls]. lia. }
    destruct (invite_api env invite) as [response|] eqn:Hapi.
    + destruct (bool_decide (guild_id response ∈ guild_invite_whitelist cfg)) eqn:Hwl;
        cbn [negb].
      * match goal with
        | |- context [invites_loop cfg env rest data] =>
            destruct (invites_loop cfg env rest data) as [t r] eqn:Eloop
        end.
        specialize (IH data). rewrite Eloop in IH. cbn [fst] in *.
        cbn [app count_calls].
        destruct (String.eqb invite code) eqn:E.
        -- apply String.eqb_eq in E as ->. rewrite Hapi in Hcode.
           apply bool_decide_eq_true in Hwl. contradiction.
        -- cbn [is_lookup]. rewrite E. lia.
      * match goal with
        | |- context [invites_loop cfg env rest ?d] =>
            destruct (invites_loop cfg env rest d) as [t r] eqn:Eloop;
            specialize (IH d); rewrite Eloop in IH
        end.
        cbn [fst] in *. cbn [app count_calls].
        destruct (String.eqb invite code) eqn:E.
        -- apply String.eqb_eq in E as ->.
           rewrite dict_has_set_same in IH. rewrite Hin. cbn [is_lookup].
           rewrite String.eqb_refl. lia.
        -- cbn [is_lookup]. rewrite E.
           rewrite dict_has_set_other in IH
             by (intros ->; rewrite String.eqb_refl in E; discriminate).
           lia.
    + cbn [ret fst app count_calls]. lia.
Qed.

(** C5: a text that names twice an invite of an allowed guild. The code
    [abc] never enters [invite_data], the only thing the loop checks before
    a lookup, so the endpoint is asked twice for it. *)
Theorem has_invites_repeats_allowed_lookup :
  _has_invites Sample.cfg Sample.env "discord.gg/abc discord.gg/abc"
  = ([GetInvite "abc"; GetInvite "abc"], Ok (VBool false))
  /\ count_calls (is_lookup "abc")
       (_has_invites Sample.cfg Sample.env "discord.gg/abc discord.gg/abc").1 = 2%nat.
Proof. split; vm_compute; reflexivity. Qed.

(** ** The edit delta *)

(** The delta of an edit is the microsecond field of the time since the
    earlier stamp, so whole seconds do not count in it. *)
Lemma edit_delta_drops_seconds (before after : Message) (t : Z) :
  edited_at before = None ->
  edited_at after = Some t ->
  edit_delta before after = (t - created_at before) mod 1000000.
Proof. intros Hb Ha. unfold edit_delta. now rewrite Hb, Ha. Qed.

(** A first edit any whole number of seconds after the creation, plus less
    than 100 microseconds, is held back by the double trigger check. *)
Lemma edit_whole_seconds_later_held_back (before after : Message) (k r : Z) :
  0 <= r < 100 ->
  edited_at before = None ->
  edited_at after = Some (created_at before + k * 1000000 + r) ->
  double_trigger "watch_rich_embeds" (Some (edit_delta before after)) = true.
Proof.
  intros Hr Hb Ha.
  rewrite (edit_delta_drops_seconds before after _ Hb Ha).
  replace (created_at before + k * 1000000 + r - created_at before)
    with (r + k * 1000000) by lia.
  rewrite Z.mod_add by lia. rewrite Z.mod_small by lia.
  unfold double_trigger. cbn [String.eqb]. rewrite ?String.eqb_refl. cbn [andb].
  apply Z.ltb_lt. lia.
Qed.

(** C8: the message of the sample edited 1.00005 seconds after it was
    created. The delta is 50, the rich embed filter is enabled and its
    function flags the message, yet the edit does not call it and the word
    filter acts instead; the same message as a new one is flagged by the rich
    embed filter. *)
Theorem edit_a_second_later_skips_rich_embeds :
  let before := Sample.posted in
  let after := Sample.edited in
  let run := on_message_edit Sample.escape Sample.cfg Sample.env
               (Sample.table Sample.env) before after in
  edited_at after = Some (created_at before + 1000050)
  /\ edit_delta before after = 50
  /\ watch_rich_embeds Sample.cfg = true
  /\ _has_rich_embed after = true
  /\ evaluates "watch_rich_embeds" run.1 = false
  /\ map fst (actions_of run.1) = ["watch_words"; "watch_words"; "watch_words"; "watch_words"]
  /\ evaluates "watch_rich_embeds"
       (_filter_message Sample.escape Sample.cfg Sample.env
          (Sample.table Sample.env) after None).1 = true.
Proof. cbv zeta. repeat split; vm_compute; reflexivity. Qed.

(** ** Deferred deletion *)

(** With the clock in hand and every call going through, the loop of the
    recovery deletes what is overdue and schedules the rest under the
    message id, in the order of the answer. *)
Lemma reschedule_loop_trace (env : Env) (now : Z) (response : list OffensiveMsg) :
  (forall a, raises env a = None) ->
  reschedule_loop env now response
  = (flat_map
       (fun msg =>
          if delete_date msg <? now then
            (if get_channel env (om_channel_id msg)
             then [FetchMessage (om_channel_id msg) (om_id msg); DeleteMessage (om_id msg)]
             else [])
            ++ [ApiDelete (om_id msg)]
          else [ScheduleTask (om_id msg) msg])
       response,
     Ok tt).
Proof.
  intros Hquiet. induction response as [|msg rest IH]; [reflexivity|].
  cbn [reschedule_loop flat_map]. rewrite IH.
  destruct (delete_date msg <? now).
  - unfold delete_offensive_msg, bind, try_except, call, ret.
    destruct (get_channel env (om_channel_id msg)); rewrite ?Hquiet; cbn;
      rewrite ?Hquiet; reflexivity.
  - unfold bind, call. rewrite Hquiet. reflexivity.
Qed.

(** C3: whatever the site answers, the recovery stops right after the
    fetch. It names the clock [datetime.datetime.utcnow()] in a module where
    [datetime] is the class, so the attribute lookup fails and no record is
    deleted or scheduled; on the sample, with one record overdue and one
    due later, the trace is the fetch alone. *)
Theorem reschedule_raises_after_fetch (env : Env) (clock : Z) :
  (reschedule_offensive_msg_deletion env clock).1 = [ApiGet]
  /\ (reschedule_offensive_msg_deletion env clock).2
     = Raise (default (AttributeError "datetime") (raises env ApiGet))
  /\ reschedule_offensive_msg_deletion Sample.env 5000
     = ([ApiGet], Raise (AttributeError "datetime"))
  /\ (reschedule_loop Sample.env 5000 (offensive_messages Sample.env)).1
     = [FetchMessage 5 11; DeleteMessage 11; ApiDelete 11;
        ScheduleTask 12 {| om_id := 12; om_channel_id := 5; delete_date := 9000000 |}].
Proof.
  unfold reschedule_offensive_msg_deletion, bind, call, lift.
  destruct (raises env ApiGet); repeat split; reflexivity.
Qed.

(** C2, as stated, with the clock at 0 and a record due half a second
    later: [wait_until] does not sleep and the deletion is entered at 0. *)
Lemma scheduled_task_can_be_early :
  ~ never_early Sample.env 0 0 {| om_id := 11; om_channel_id := 5; delete_date := 500000 |}.
Proof.
  unfold never_early. intros H.
  destruct H as (resumed & run & E & Hle); [reflexivity|].
  vm_compute in E. inversion E; subst. cbn in Hle. lia.
Qed.

(** C2, amended: the task always enters the deletion, never more than one
    second before the delete-at time; when that time is more than one second
    ahead it sleeps, and enters the deletion at that time or later; when it
    is one second ahead or less, or past, it does not wait at all. *)
Theorem scheduled_task_timing (env : Env) (late : N) (clock : Z) (msg : OffensiveMsg) :
  exists resumed,
    _scheduled_task env late clock msg = Ok (resumed, delete_offensive_msg env msg)
    /\ delete_date msg - timedelta_seconds 1 <= resumed
    /\ clock <= resumed
    /\ if timedelta_seconds 1 <? delete_date msg - clock
       then delete_date msg <= resumed
       else resumed = clock.
Proof.
  unfold _scheduled_task, Time.wait_until. cbn [utcnow_of attr_datetime Time.datetime call_utcnow].
  destruct (timedelta_seconds 1 <? delete_date msg - clock) eqn:E.
  - eexists. split; [reflexivity|].
    apply Z.ltb_lt in E. unfold Time.asyncio_sleep, timedelta_seconds in *. lia.
  - eexists. split; [reflexivity|].
    apply Z.ltb_ge in E. unfold timedelta_seconds in *. lia.
Qed.

(** ** The loop over the filters *)

Lemma ends_bind {A : Type} (m : M A) (k : A -> M Ctl) :
  (forall a, ends (k a)) -> ends (bind m k).
Proof.
  intros H. unfold ends, bind. destruct m as [t [a|e]]; [|cbn; discriminate].
  specialize (H a). unfold ends in H. destruct (k a) as [t' r]. exact H.
Qed.

Lemma on_match_ends escape cfg env msg filter_name _filter match_ :
  ends (on_match escape cfg env msg filter_name _filter match_).
Proof.
  unfold on_match.
  apply ends_bind; intros go. destruct (negb go); [cbn; discriminate|].
  repeat (apply ends_bind; intros ?). cbn. discriminate.
Qed.

(** A turn that falls through made no call of its own. *)
Lemma filter_body_next escape cfg env msg delta n f :
  (filter_body escape cfg env msg delta n f).2 = Ok Next ->
  forall a, Acting a ∉ (filter_body escape cfg env msg delta n f).1.
Proof.
  unfold filter_body.
  destruct (negb (enabled f)); [intros _ a H; cbn in H; set_solver|].
  destruct (double_trigger n delta); [intros _ a H; cbn in H; set_solver|].
  destruct (matcher_result msg f) as [tm [v|e]]; [|cbn; discriminate].
  destruct (truthy v).
  - pose proof (on_match_ends escape cfg env msg n f v) as He. unfold ends in He.
    destruct (on_match escape cfg env msg n f v) as [ta ra]. cbn in *. contradiction.
  - intros _ a H. cbn [fst] in H.
    apply elem_of_cons in H as [H|H]; [discriminate|].
    apply list_elem_of_fmap in H as (b & Hb & _). discriminate.
Qed.

(** A filter that is enabled, not held back and whose function answers with
    a match ends the loop. *)
Lemma filter_body_hit escape cfg env msg delta n f :
  enabled f = true -> double_trigger n delta = false -> would_match msg f = true ->
  (filter_body escape cfg env msg delta n f).2 <> Ok Next.
Proof.
  intros He Hd Hw. unfold filter_body, would_match in *. rewrite He, Hd. cbn [negb].
  destruct (matcher_result msg f) as [tm [v|e]]; cbn [snd] in *; [|discriminate].
  rewrite Hw.
  pose proof (on_match_ends escape cfg env msg n f v) as H. unfold ends in H.
  destruct (on_match escape cfg env msg n f v) as [ta ra]. exact H.
Qed.

Lemma filter_loop_cut escape cfg env msg delta pre n f rest :
  (filter_body escape cfg env msg delta n f).2 <> Ok Next ->
  filter_loop escape cfg env msg delta (pre ++ (n, f) :: rest)
  = filter_loop escape cfg env msg delta (pre ++ [(n, f)]).
Proof.
  intros Hend. induction pre as [|[n' f'] pre IH]; cbn [app filter_loop].
  - destruct (filter_body escape cfg env msg delta n f) as [t [[| |]|e]];
      cbn in Hend; try reflexivity. contradiction.
  - destruct (filter_body escape cfg env msg delta n' f') as [t [[| |]|e]];
      try reflexivity.
    now rewrite IH.
Qed.

Lemma filter_loop_tags escape cfg env msg delta items n s :
  (n, s) ∈ (filter_loop escape cfg env msg delta items).1 -> n ∈ items.*1.
Proof.
  induction items as [|[n' f'] items IH]; cbn [filter_loop]; [cbn; set_solver|].
  destruct (filter_body escape cfg env msg delta n' f') as [t r].
  assert (Hhead : (n, s) ∈ map (pair n') t -> n = n').
  { intros H. apply list_elem_of_fmap in H as (b & [= -> _] & _). reflexivity. }
  destruct r as [[| |]|e]; cbn [fst fmap list_fmap]; intros H.
  - destruct (filter_loop escape cfg env msg delta items) as [t' r'].
    cbn [fst] in *. apply elem_of_app in H as [H|H].
    + apply Hhead in H as ->. set_solver.
    + apply elem_of_cons. right. now apply IH.
  - apply Hhead in H as ->. set_solver.
  - apply Hhead in H as ->. set_solver.
  - apply Hhead in H as ->. set_solver.
Qed.

(** All the calls that the bodies of [if match:] make in one run come from
    the turn of one filter. *)
Lemma filter_loop_one_actor escape cfg env msg delta items :
  exists n, forall n' a,
    (n', Acting a) ∈ (filter_loop escape cfg env msg delta items).1 -> n' = n.
Proof.
  induction items as [|[n f] items [m IH]]; cbn [filter_loop].
  - exists "". intros n' a H. cbn in H. set_solver.
  - pose proof (filter_body_next escape cfg env msg delta n f) as Hnext.
    destruct (filter_body escape cfg env msg delta n f) as [t r].
    assert (Hhead : forall n' a, (n', Acting a) ∈ map (pair n) t -> n' = n).
    { intros n' a H. apply list_elem_of_fmap in H as (b & [= -> _] & _). reflexivity. }
    destruct r as [[| |]|e]; cbn [fst]; try (exists n; exact Hhead).
    destruct (filter_loop escape cfg env msg delta items) as [t' r'].
    exists m. intros n' a H. cbn [fst] in *.
    apply elem_of_app in H as [H|H]; [|now apply (IH n' a)].
    apply list_elem_of_fmap in H as (b & [= -> <-] & Hb).
    exfalso. now apply (Hnext eq_refl a).
Qed.

Lemma actions_of_app (t t' : list (string * Step)) :
  actions_of (t ++ t') = actions_of t ++ actions_of t'.
Proof.
  induction t as [|[n [| |a]] t IH]; cbn [actions_of app]; try assumption; try reflexivity.
  now rewrite IH.
Qed.

Lemma actions_of_matching (n : string) (tm : list Action) :
  actions_of (map (pair n) (map Matching tm)) = [].
Proof. induction tm as [|a tm IH]; [reflexivity | exact IH]. Qed.

Lemma actions_of_acting (n : string) (ta : list Action) :
  actions_of (map (pair n) (map Acting ta)) = map (pair n) ta.
Proof. induction ta as [|a ta IH]; [reflexivity | cbn; now rewrite <- IH]. Qed.

Lemma actions_of_quiet (n : string) (t : list Step) :
  (forall a, Acting a ∉ t) -> actions_of (map (pair n) t) = [].
Proof.
  induction t as [|[| |a] t IH]; intros H; cbn [map actions_of]; try reflexivity.
  - apply IH. intros a Ha. apply (H a). now apply list_elem_of_further.
  - apply IH. intros a' Ha. apply (H a'). now apply list_elem_of_further.
  - exfalso. apply (H a). apply list_elem_of_here.
Qed.

Lemma evaluates_matching (name n : string) (tm : list Action) :
  evaluates name (map (pair n) (map Matching tm)) = false.
Proof. induction tm as [|a tm IH]; [reflexivity | exact IH]. Qed.

Lemma evaluates_app (name : string) (t t' : list (string * Step)) :
  evaluates name (t ++ t') = evaluates name t || evaluates name t'.
Proof. unfold evaluates. apply existsb_app. Qed.

(** Filters whose turns fall through only prepend their steps. *)
Lemma filter_loop_pass_app escape cfg env msg delta pre rest :
  Forall (passes escape cfg env msg delta) pre ->
  filter_loop escape cfg env msg delta (pre ++ rest)
  = ((filter_loop escape cfg env msg delta pre).1
     ++ (filter_loop escape cfg env msg delta rest).1,
     (filter_loop escape cfg env msg delta rest).2)
  /\ actions_of (filter_loop escape cfg env msg delta pre).1 = [].
Proof.
  induction 1 as [|[n f] pre Hp _ [IH1 IH2]]; cbn [app].
  - cbn. split; [now destruct (filter_loop escape cfg env msg delta rest) | reflexivity].
  - cbn [filter_loop]. unfold passes in Hp. cbn [fst snd] in Hp.
    pose proof (filter_body_next escape cfg env msg delta n f Hp) as Hq.
    destruct (filter_body escape cfg env msg delta n f) as [t r].
    cbn [snd fst] in *. subst r. rewrite IH1.
    destruct (filter_loop escape cfg env msg delta pre) as [tp rp].
    cbn [fst snd] in *. split.
    + now rewrite app_assoc.
    + rewrite actions_of_app, IH2, app_nil_r. now apply actions_of_quiet.
Qed.

(** C1, as stated, on the sample: the edit event comes 50 microseconds
    after the creation, and the message has an embed of its own and a
    watched word. The rich embed filter and the word filter are enabled and
    both functions flag the message, and it is the word filter, declared
    second, that acts. *)
Lemma second_rule_acts_after_held_back_rule :
  ~ first_declared_wins Sample.escape Sample.cfg Sample.env (Sample.table Sample.env)
      Sample.edited_at_once (Some (edit_delta Sample.posted Sample.edited_at_once)).
Proof.
  unfold first_declared_wins. intros H.
  refine (H (take 4 (Sample.table Sample.env)) "watch_rich_embeds" _ []
            "watch_words" _ (drop 6 (Sample.table Sample.env))
            (StatsIncr "filters.watch_words")
            eq_refl eq_refl eq_refl eq_refl eq_refl _).
  vm_compute.
  repeat first [apply list_elem_of_here | apply list_elem_of_further].
Qed.

(** C1, amended: in one run all the calls of the bodies of [if match:]
    (delete, notify, schedule, log) come from one filter. A filter that is
    enabled, that the double trigger check does not hold back, and whose
    function answers with a match ends the loop: the run is the run of the
    table cut after it, and no step of it belongs to a filter declared
    later. A filter held back by the check counts like a disabled one. *)
Theorem first_match_wins escape cfg env (self_filters : list (string * FilterEntry))
    (msg : Message) (delta : option Z) :
  NoDup self_filters.*1 ->
  let run := _filter_message escape cfg env self_filters msg delta in
  (exists n, forall n' a, (n', Acting a) ∈ run.1 -> n' = n)
  /\ forall pre n1 f1 rest,
       self_filters = pre ++ (n1, f1) :: rest ->
       enabled f1 = true ->
       double_trigger n1 delta = false ->
       would_match msg f1 = true ->
       run = _filter_message escape cfg env (pre ++ [(n1, f1)]) msg delta
       /\ forall n2 s, n2 ∈ rest.*1 -> (n2, s) ∉ run.1.
Proof.
  intros Hnd. cbv zeta. unfold _filter_message.
  destruct (filter_message cfg msg).
  - split; [apply filter_loop_one_actor|].
    intros pre n1 f1 rest -> He Hd Hw.
    pose proof (filter_body_hit escape cfg env msg delta n1 f1 He Hd Hw) as Hend.
    split; [now apply filter_loop_cut|].
    intros n2 s Hin Hmem. rewrite filter_loop_cut in Hmem by assumption.
    apply filter_loop_tags in Hmem.
    rewrite fmap_app in Hnd, Hmem. cbn [fmap list_fmap fst] in Hnd, Hmem.
    apply NoDup_app in Hnd as (_ & Hdisj & Hnd).
    apply NoDup_cons in Hnd as [Hn1 _].
    apply elem_of_app in Hmem as [Hmem|Hmem].
    + apply (Hdisj n2 Hmem). now apply list_elem_of_further.
    + apply list_elem_of_singleton in Hmem as ->. contradiction.
  - split; [exists ""; intros n' a H; cbn in H; set_solver|].
    intros pre n1 f1 rest _ _ _ _. split; [reflexivity|].
    intros n2 s _ H. cbn in H. set_solver.
Qed.

(** On the sample message as posted, the rich embed filter is the first
    to match: the run is the run of the first five filters, and the word
    filter, which would match too, does nothing. *)
Lemma first_match_wins_witness :
  NoDup (Sample.table Sample.env).*1
  /\ let run := _filter_message Sample.escape Sample.cfg Sample.env
                  (Sample.table Sample.env) Sample.posted None in
     (exists n, forall n' a, (n', Acting a) ∈ run.1 -> n' = n)
     /\ run = _filter_message Sample.escape Sample.cfg Sample.env
                (take 5 (Sample.table Sample.env)) Sample.posted None
     /\ forall s, ("watch_words", s) ∉ run.1.
Proof.
  assert (Hnd : NoDup (Sample.table Sample.env).*1)
    by (apply (bool_decide_unpack _); vm_compute; exact I).
  split; [exact Hnd|].
  destruct (first_match_wins Sample.escape Sample.cfg Sample.env
              (Sample.table Sample.env) Sample.posted None Hnd) as [Hone Hcut].
  destruct (Hcut (take 4 (Sample.table Sample.env)) "watch_rich_embeds" _
              (drop 5 (Sample.table Sample.env)) eq_refl eq_refl eq_refl eq_refl)
    as [Hrun Hlater].
  cbv zeta. split; [exact Hone|]. split; [exact Hrun|].
  intros s. apply Hlater. vm_compute.
  repeat first [apply list_elem_of_here | apply list_elem_of_further].
Defined.

(** C7: a filter of type ["filter"] is reached by the loop and its function
    answers with a match, the channel is not private, and [msg.delete()]
    raises [NotFound]. The method then returns without an exception, with
    the delete attempt as its last step: the steps are those of the earlier
    filters, which made no call of their own, the call of the function, and
    the delete; nothing is sent to the author or to the mod log, and no later
    filter is looked at. *)
Theorem hard_filter_gone_stops_event escape cfg env
    (pre : list (string * FilterEntry)) (name : string) (f : FilterEntry)
    (post : list (string * FilterEntry)) (msg : Message) (delta : option Z)
    (tm : list Action) (v : MatchValue) :
  filter_message cfg msg = true ->
  Forall (passes escape cfg env msg delta) pre ->
  enabled f = true ->
  double_trigger name delta = false ->
  matcher_result msg f = (tm, Ok v) ->
  truthy v = true ->
  type f = "filter" ->
  is_private msg = false ->
  raises env (DeleteMessage (msg_id msg)) = Some NotFound ->
  let run := _filter_message escape cfg env (pre ++ (name, f) :: post) msg delta in
  run = ((filter_loop escape cfg env msg delta pre).1
         ++ map (pair name)
              (Evaluate :: map Matching tm ++ [Acting (DeleteMessage (msg_id msg))]),
         Ok tt)
  /\ actions_of run.1 = [(name, DeleteMessage (msg_id msg))]
  /\ forall later, later ∈ post.*1 -> later <> name ->
       later ∉ pre.*1 -> evaluates later run.1 = false.
Proof.
  intros Hfm Hpre He Hd Hm Hv Hty Hpriv Hgone. cbv zeta.
  unfold _filter_message. rewrite Hfm.
  destruct (filter_loop_pass_app escape cfg env msg delta pre ((name, f) :: post) Hpre)
    as [Happ Hquiet].
  rewrite Happ.
  assert (Hturn : filter_loop escape cfg env msg delta ((name, f) :: post)
                  = (map (pair name)
                       (Evaluate :: map Matching tm
                        ++ [Acting (DeleteMessage (msg_id msg))]), Ok tt)).
  { cbn [filter_loop]. unfold filter_body. rewrite He, Hd, Hm, Hv. cbn [negb].
    unfold on_match, delete_and_notify. rewrite Hty, Hpriv.
    cbn [String.eqb negb andb]. rewrite ?String.eqb_refl. cbn [andb].
    unfold bind, try_except, call, ret. rewrite Hgone. cbn. reflexivity. }
  rewrite Hturn. cbn [fst snd]. split; [reflexivity|]. split.
  - rewrite actions_of_app, Hquiet. cbn [app map actions_of].
    rewrite map_app, actions_of_app, actions_of_matching. reflexivity.
  - intros later Hin Hne Hnot. rewrite evaluates_app.
    apply orb_false_iff. split.
    + destruct (evaluates later (filter_loop escape cfg env msg delta pre).1) eqn:E;
        [|reflexivity].
      exfalso. apply Hnot. unfold evaluates in E.
      apply existsb_exists in E as ([n s] & Hmem & Hs).
      destruct s; try discriminate. apply String.eqb_eq in Hs as ->.
      apply list_elem_of_In in Hmem. now apply filter_loop_tags in Hmem.
    + unfold evaluates. cbn [map existsb]. apply orb_false_iff. split.
      * apply String.eqb_neq. congruence.
      * rewrite map_app, existsb_app. apply orb_false_iff. split; [|reflexivity].
        apply evaluates_matching.
Qed.

(** On the sample, an invite to a guild that is not allowed, in a message
    that is gone when the cog deletes it. *)
Lemma hard_filter_gone_stops_event_witness :
  _filter_message Sample.escape Sample.cfg Sample.env_gone
    (Sample.table Sample.env_gone) Sample.invite_post None
  = ([("filter_zalgo", Evaluate); ("filter_invites", Evaluate);
      ("filter_invites", Matching (GetInvite "xyz"));
      ("filter_invites", Acting (DeleteMessage 13))], Ok tt)
  /\ actions_of (_filter_message Sample.escape Sample.cfg Sample.env_gone
                   (Sample.table Sample.env_gone) Sample.invite_post None).1
     = [("filter_invites", DeleteMessage 13)].
Proof.
  destruct (hard_filter_gone_stops_event Sample.escape Sample.cfg Sample.env_gone
              (take 1 (Sample.table Sample.env_gone)) "filter_invites"
              {| enabled := true;
                 function := on_text (_has_invites Sample.cfg Sample.env_gone);
                 type := "filter";
                 content_only := true;
                 user_notification := Some true;
                 notification_msg := Some
                   ("Per Rule 6, your invite link has been removed. "
                    +:+ staff_mistake_str +:+ nl +:+ nl
                    +:+ "Our server rules can be found here: <https://pythondiscord.com/pages/rules>");
                 schedule_deletion := Some false |}
              (drop 2 (Sample.table Sample.env_gone)) Sample.invite_post None
              [GetInvite "xyz"]
              (VDict [("xyz", {| name := "other";
                                 icon := "https://cdn.discordapp.com/icons/7/b2.png?size=512";
                                 members := 20; active := 5 |})]))
    as (Hrun & Hact & _).
  - reflexivity.
  - repeat constructor.
  - reflexivity.
  - reflexivity.
  - vm_compute. reflexivity.
  - reflexivity.
  - reflexivity.
  - reflexivity.
  - reflexivity.
  - split; [exact Hrun | exact Hact].
Defined.

(** C10, as stated, on the sample: the rich embed rule is enabled, and its
    function is called neither on the new message of a bot, which is exempt,
    nor on a new message with an invite, on which the invite rule, declared
    before it, matches and ends the loop. *)
Lemma enabled_rule_not_reached_on_new_message :
  ~ always_evaluated_when_new Sample.escape Sample.literal_search Sample.cfg Sample.env
      (Sample.table Sample.env) Cases.robot_post
  /\ ~ always_evaluated_when_new Sample.escape Sample.literal_search Sample.cfg Sample.env
        (Sample.table Sample.env) Sample.invite_post.
Proof.
  split; intros H;
    (eassert (Hin : ("watch_rich_embeds", _) ∈ Sample.table Sample.env)
       by (unfold Sample.table, filters;
           do 4 apply list_elem_of_further; apply list_elem_of_here));
    specialize (H _ ∅ 10 11 Hin eq_refl); vm_compute in H; discriminate.
Qed.

(** C10, amended: [on_message] runs the filter with no delta, for which the
    double trigger check holds back no filter. So on a new message that is
    not exempt, and on which the turns of the filters declared before it fall
    through, an enabled rich embed filter is evaluated whatever the time
    stamps of the message: its function is called, on the text or on the
    message as [content_only] says, the calls of the function follow, and its
    answer decides the run. When the function raises, the run raises; when
    it answers with a match, the body of [if match:] runs and ends the loop;
    otherwise the loop goes on with the filters declared after it. *)
Theorem new_message_never_held_back escape re_search cfg env
    (self_filters pre post : list (string * FilterEntry)) (f : FilterEntry)
    (name_alerts : gmap Z Z) (clock clock' : Z) (msg : Message) :
  self_filters = pre ++ ("watch_rich_embeds", f) :: post ->
  filter_message cfg msg = true ->
  Forall (passes escape cfg env msg None) pre ->
  enabled f = true ->
  let run := (on_message escape re_search cfg env self_filters
                name_alerts clock clock' msg).1 in
  let called :=
    function f (if content_only f then ArgText (content msg) else ArgMessage msg) in
  let turn (t : list Step) := map (pair "watch_rich_embeds") t in
  let before := (filter_loop escape cfg env msg None pre).1 in
  run = _filter_message escape cfg env self_filters msg None
  /\ (forall filter_name, double_trigger filter_name None = false)
  /\ match called.2 with
     | Raise e =>
         run = (before ++ turn (Evaluate :: map Matching called.1), Raise e)
     | Ok match_ =>
         if truthy match_ then
           let acted := on_match escape cfg env msg "watch_rich_embeds" f match_ in
           run = (before
                  ++ turn (Evaluate :: map Matching called.1 ++ map Acting acted.1),
                  match acted.2 with
                  | Ok _ => Ok tt
                  | Raise e => Raise e
                  end)
         else
           let rest := filter_loop escape cfg env msg None post in
           run = (before ++ turn (Evaluate :: map Matching called.1) ++ rest.1, rest.2)
     end.
Proof.
  intros -> Hfm Hpre He. cbv zeta. unfold on_message. cbn [fst].
  split; [reflexivity|]. split.
  - intros filter_name. unfold double_trigger. apply andb_false_r.
  - unfold _filter_message. rewrite Hfm.
    pose proof (filter_loop_pass_app escape cfg env msg None pre
                  (("watch_rich_embeds", f) :: post) Hpre) as [Hrun _].
    rewrite Hrun. clear Hrun.
    cbn [filter_loop]. unfold filter_body. rewrite He. cbn [negb].
    replace (double_trigger "watch_rich_embeds" None) with false by reflexivity.
    unfold matcher_result.
    destruct (content_only f);
      (destruct (function f _) as [tm [v|e]]; cbn [fst snd]; [|reflexivity];
       destruct (truthy v);
       [ pose proof (on_match_ends escape cfg env msg "watch_rich_embeds" f v) as Hend;
         unfold ends in Hend;
         destruct (on_match escape cfg env msg "watch_rich_embeds" f v)
           as [ta [[| |]|e]];
         cbn [fst snd] in *; try reflexivity; contradiction
       | destruct (filter_loop escape cfg env msg None post) as [t' r'];
         cbn [fst snd]; reflexivity ]).
Qed.

(** On the sample message as posted: the four filters before fall through,
    [_has_rich_embed] is called on the message and flags the embed without a
    URL, and the run counts the match and reports it with the embeds. *)
Lemma new_message_never_held_back_witness :
  exists text,
    (on_message Sample.escape Sample.literal_search Sample.cfg Sample.env
       (Sample.table Sample.env) ∅ 10 11 Sample.posted).1
    = ([ ("filter_zalgo", Evaluate); ("filter_invites", Evaluate);
         ("filter_domains", Evaluate); ("watch_regex", Evaluate);
         ("watch_rich_embeds", Evaluate);
         ("watch_rich_embeds", Acting (StatsIncr "filters.watch_rich_embeds"));
         ("watch_rich_embeds",
          Acting (SendLog "Watchlist triggered!" text false
                    (MessageEmbeds [Sample.rich_no_url])
                    (Some "With the following embed(s):"))) ],
       Ok tt).
Proof.
  destruct (new_message_never_held_back Sample.escape Sample.literal_search
              Sample.cfg Sample.env (Sample.table Sample.env)
              (take 4 (Sample.table Sample.env)) (drop 5 (Sample.table Sample.env))
              _ ∅ 10 11 Sample.posted eq_refl eq_refl
              ltac:(repeat constructor) eq_refl) as (_ & _ & H).
  cbv zeta in H.
  remember (on_message Sample.escape Sample.literal_search Sample.cfg Sample.env
              (Sample.table Sample.env) ∅ 10 11 Sample.posted).1 as run eqn:Erun.
  vm_compute in H. eexists. exact H.
Defined.

(** ** The username check *)

(** The cooldown on a host whose zone is not east of UTC: every call goes
    through, the display name matches a watchlist pattern, and no alert for
    the member was recorded in the three days before the first check. The
    first check sends the alert and records the stamp of [t1'], its clock
    reading then; a second check whose clock reads less than three days more
    finds that record and only reads the cache. Over the two checks there is
    one alert and one write to the cache. *)
Lemma one_alert_per_window re_search cfg env (name_alerts : gmap Z Z)
    (member : Author) (t1 t1' t2 t2' : Z) :
  (forall a, raises env a = None) ->
  get_name_matches re_search cfg (display_name member) <> [] ->
  match name_alerts !! author_id member with
  | Some last => last = 0 \/ last <= t1 - timedelta_days DAYS_BETWEEN_ALERTS
  | None => True
  end ->
  local_utcoffset env t1' <= 0 ->
  0 < t1' ->
  t1' <= t2 ->
  t2 < t1' + timedelta_days DAYS_BETWEEN_ALERTS ->
  exists tr1 store1 tr2,
    check_bad_words_in_name re_search cfg env name_alerts t1 t1' member = (tr1, Ok store1)
    /\ check_bad_words_in_name re_search cfg env store1 t2 t2' member = (tr2, Ok store1)
    /\ count_calls is_alert (tr1 ++ tr2) = 1%nat
    /\ count_calls is_cache_write (tr1 ++ tr2) = 1%nat
    /\ tr2 = [CacheGet (author_id member)]
    /\ store1 !! author_id member = Some (timestamp env t1').
Proof.
  intros Hquiet Hname Hfresh Hzone Hpos Hle Hwin.
  set (stamp := timestamp env t1').
  assert (Hstamp : t1' <= stamp) by (unfold stamp, timestamp; lia).
  assert (Hsecond :
            check_bad_words_in_name re_search cfg env
              (<[author_id member := stamp]> name_alerts) t2 t2' member
            = ([CacheGet (author_id member)],
               Ok (<[author_id member := stamp]> name_alerts))).
  { unfold check_bad_words_in_name.
    rewrite bool_decide_eq_false_2 by exact Hname.
    unfold check_send_alert, bind, call, lift, ret. rewrite Hquiet.
    rewrite lookup_insert_eq.
    destruct (stamp =? 0) eqn:E0; [apply Z.eqb_eq in E0; lia|].
    unfold utcfromtimestamp, utcnow_of, datetime, call_utcnow.
    destruct (t2 - timedelta_days DAYS_BETWEEN_ALERTS <? stamp) eqn:E;
      [reflexivity | apply Z.ltb_ge in E; lia]. }
  assert (Hfirst :
            exists log_string,
              check_bad_words_in_name re_search cfg env name_alerts t1 t1' member
              = ([CacheGet (author_id member);
                  SendLog "Username filtering alert" log_string false NoExtra None;
                  CacheSet (author_id member) stamp],
                 Ok (<[author_id member := stamp]> name_alerts))).
  { unfold check_bad_words_in_name.
    rewrite bool_decide_eq_false_2 by exact Hname.
    unfold check_send_alert, bind, call, lift, ret. rewrite Hquiet.
    eexists.
    destruct (name_alerts !! author_id member) as [last|].
    - destruct (last =? 0) eqn:E0.
      + cbn. rewrite !Hquiet. reflexivity.
      + unfold utcfromtimestamp, utcnow_of, datetime, call_utcnow.
        apply Z.eqb_neq in E0.
        destruct (t1 - timedelta_days DAYS_BETWEEN_ALERTS <? last) eqn:E;
          [apply Z.ltb_lt in E; lia|].
        cbn. rewrite !Hquiet. reflexivity.
    - cbn. rewrite !Hquiet. reflexivity. }
  destruct Hfirst as [log_string Hfirst].
  eexists _, _, _. split; [exact Hfirst|]. split; [exact Hsecond|].
  repeat split. apply lookup_insert_eq.
Qed.

(** C4: on a host two hours east of UTC the code does not keep the window.
    The member's display name matches the watchlist and nothing is recorded
    for her. The first check, at noon UTC, alerts and records the stamp of
    its clock reading, which [timestamp] takes for the wall clock of the host
    and so puts two hours early. The second check comes three days less one
    hour after the first, inside the window, finds a record that
    [utcfromtimestamp] reads as three days and one hour old, and alerts
    again: two alerts and two writes to the cache, where the same two checks
    on a host in UTC give one alert and one write. *)
Theorem east_of_utc_alerts_twice_in_window :
  let later := Cases.noon + timedelta_days 3 - timedelta_seconds 3600 in
  let alerts_and_writes (host : Env) :=
    let first := check_bad_words_in_name Sample.literal_search Sample.cfg_names host
                   ∅ Cases.noon Cases.noon Sample.alice in
    match first.2 with
    | Ok store1 =>
        let second := check_bad_words_in_name Sample.literal_search Sample.cfg_names
                        host store1 later later Sample.alice in
        Some (count_calls is_alert (first.1 ++ second.1),
              count_calls is_cache_write (first.1 ++ second.1))
    | Raise _ => None
    end in
  later - Cases.noon < timedelta_days DAYS_BETWEEN_ALERTS
  /\ alerts_and_writes Cases.east = Some (2%nat, 2%nat)
  /\ alerts_and_writes Sample.env = Some (1%nat, 1%nat).
Proof. vm_compute. repeat split. Qed.

(** * Further properties *)

(** ** The text of a duration *)

Lemma append_length (a b : string) :
  String.length (a +:+ b) = (String.length a + String.length b)%nat.
Proof.
  induction a as [|c a IH]; [reflexivity|].
  rewrite append_cons. cbn [String.length]. now rewrite IH.
Qed.

Lemma stringify_time_unit_nonempty (value : Z) (unit : string) :
  Time._stringify_time_unit value unit <> "".
Proof.
  unfold Time._stringify_time_unit. intros H.
  apply (f_equal String.length) in H.
  destruct (value =? 1); [|destruct (value =? 0)];
    rewrite !append_length in H; cbn [String.length] in H; lia.
Qed.

(** The loop adds to [time_strings] the next units that are not zero, up to
    the precision, until [max_units] are there. *)
Lemma humanize_loop_take (precision : string) (max_units : Z)
    (units : list (string * Z)) :
  forall (time_strings : list string) (unit_count : Z),
    0 <= unit_count < max_units ->
    Time.humanize_loop precision max_units units time_strings unit_count
    = time_strings
      ++ take (Z.to_nat (max_units - unit_count))
              (nonzero_units (upto_precision precision units)).
Proof.
  unfold nonzero_units.
  induction units as [|[unit value] rest IH]; intros ts c Hc.
  - cbn. now rewrite take_nil, app_nil_r.
  - cbn [Time.humanize_loop upto_precision List.filter snd fst].
    destruct (value =? 0) eqn:Ev; cbn [negb].
    + destruct (String.eqb unit precision) eqn:Ep; cbn [orb].
      * cbn. now rewrite take_nil, app_nil_r.
      * destruct (max_units <=? c) eqn:Em; [apply Z.leb_le in Em; lia|].
        now apply IH.
    + cbn [map snd fst].
      replace (Z.to_nat (max_units - c)) with (S (Z.to_nat (max_units - (c + 1)))) by lia.
      cbn [take].
      destruct (String.eqb unit precision) eqn:Ep; cbn [orb].
      * cbn. now rewrite take_nil.
      * destruct (max_units <=? c + 1) eqn:Em.
        -- apply Z.leb_le in Em.
           replace (Z.to_nat (max_units - (c + 1))) with O by lia. reflexivity.
        -- apply Z.leb_gt in Em. rewrite IH by lia.
           now rewrite <- app_assoc.
Qed.

Lemma join_last_two_nonempty (l : list string) :
  l <> [] -> Time.join_last_two l <> [].
Proof.
  induction l as [|a [|b [|c l]] IH]; intros H; cbn; try discriminate. contradiction.
Qed.

Lemma join_last_two_all_nonempty (l : list string) :
  Forall (fun s => s <> "") l -> Forall (fun s => s <> "") (Time.join_last_two l).
Proof.
  induction l as [|a [|b [|c l]] IH]; intros H.
  - constructor.
  - exact H.
  - constructor; [|constructor]. intros E. apply (f_equal String.length) in E.
    rewrite !append_length in E. cbn [String.length] in E. lia.
  - apply Forall_cons in H as [Ha H]. constructor; [exact Ha|]. now apply IH.
Qed.

Lemma join_sep_nonempty (sep : string) (l : list string) :
  l <> [] -> Forall (fun s => s <> "") l -> Py.join_sep sep l <> "".
Proof.
  destruct l as [|a [|b l]]; intros Hl H; [contradiction| |];
    apply Forall_cons in H as [Ha _]; cbn [Py.join_sep]; [exact Ha|].
  intros E. apply (f_equal String.length) in E. rewrite append_length in E.
  destruct a; [contradiction|]. cbn [String.length] in E. lia.
Qed.

Lemma nonzero_units_all_nonempty (units : list (string * Z)) :
  Forall (fun s => s <> "") (nonzero_units units).
Proof.
  unfold nonzero_units. apply Forall_forall. intros s Hs.
  apply list_elem_of_fmap in Hs as (uv & -> & _). apply stringify_time_unit_nonempty.
Qed.

(** X1: for a positive [max_units], [humanize_delta] shows the units that
    are not zero, from the years down to the precision and in that order,
    stops after [max_units] of them, joins the last two with " and " and the
    others with ", ", and says "less than a" unit when there is none. *)
Theorem humanize_delta_shows (delta : Time.relativedelta) (precision : string)
    (max_units : Z) :
  0 < max_units ->
  Time.humanize_delta delta precision max_units
  = Time.Returns
      (match shown_units delta precision max_units with
       | [] => "less than a " +:+ Time.drop_last precision
       | [a] => a
       | shown => Py.join_sep ", " (Time.join_last_two shown)
       end)
  /\ (length (shown_units delta precision max_units) <= Z.to_nat max_units)%nat.
Proof.
  intros Hm. split; [|unfold shown_units; rewrite length_take; lia].
  unfold Time.humanize_delta.
  destruct (max_units <=? 0) eqn:E; [apply Z.leb_le in E; lia|].
  rewrite humanize_loop_take by lia. cbn [app]. rewrite Z.sub_0_r.
  fold (shown_units delta precision max_units).
  destruct (shown_units delta precision max_units) as [|a [|b l]] eqn:Es.
  - reflexivity.
  - reflexivity.
  - cbn [length Nat.ltb Nat.leb].
    rewrite bool_decide_eq_false_2; [reflexivity|].
    now apply join_last_two_nonempty.
Qed.

Lemma humanize_delta_shows_witness :
  Time.humanize_delta
    {| Time.years := 0; Time.months := 2; Time.days := 0;
       Time.hours := 1; Time.minutes := 5; Time.seconds := 9 |} "minutes" 2
  = Time.Returns "2 months and 1 hour".
Proof.
  refine (eq_trans (proj1 (humanize_delta_shows _ "minutes" 2 _)) _); [lia|].
  vm_compute. reflexivity.
Defined.

Lemma humanize_delta_outcome (delta : Time.relativedelta) (precision : string)
    (max_units : Z) :
  match Time.humanize_delta delta precision max_units with
  | Time.Returns text => 0 < max_units /\ text <> ""
  | Time.Raises e => max_units <= 0 /\ e = Time.ValueError "max_units must be positive"
  end.
Proof.
  unfold Time.humanize_delta.
  destruct (max_units <=? 0) eqn:E; [apply Z.leb_le in E; now split|].
  apply Z.leb_gt in E. rewrite humanize_loop_take by lia. cbn [app].
  set (shown := take _ _).
  assert (Hall : Forall (fun s => s <> "") shown).
  { unfold shown. apply Forall_take, nonzero_units_all_nonempty. }
  destruct (bool_decide _) eqn:Eb.
  - split; [lia|]. apply stringify_time_unit_nonempty.
  - apply bool_decide_eq_false in Eb. split; [lia|].
    destruct (1 <? length shown)%nat.
    + apply join_sep_nonempty; [exact Eb|].
      apply join_last_two_all_nonempty. exact Hall.
    + now apply join_sep_nonempty.
Qed.

(** X2: [humanize_delta] raises [ValueError] exactly when [max_units] is
    not positive, and the text it returns otherwise is never empty. *)
Theorem humanize_delta_total (delta : Time.relativedelta) (precision : string)
    (max_units : Z) :
  match Time.humanize_delta delta precision max_units with
  | Time.Returns text => 0 < max_units /\ text <> ""
  | Time.Raises e => max_units <= 0 /\ e = Time.ValueError "max_units must be positive"
  end.
Proof. apply humanize_delta_outcome. Qed.

(** ** Infraction times *)

(** X3: for a naive [date_from], or none, [format_infraction_with_duration]
    returns [None] exactly for a missing or empty expiry, whatever
    [max_units]. For another expiry it raises what [isoparse] raises on it;
    when [isoparse] reads it, it raises [ValueError] for a [max_units] that is
    not positive, and otherwise returns the formatted expiry followed by the
    duration in brackets. The duration is never empty, so the branch for an
    empty duration is never taken. *)
Theorem format_infraction_with_duration_shape
    (isoparse : string -> Time.Outcome Z) (strftime_infraction : Z -> string)
    (relativedelta_between : Z -> Z -> Time.relativedelta)
    (clock : Z) (expiry : option string) (date_from : option Z) (max_units : Z) :
  let result := Time.format_infraction_with_duration isoparse strftime_infraction
                  relativedelta_between clock expiry date_from max_units in
  (result = Time.Returns None <-> expiry = None \/ expiry = Some "")
  /\ match expiry with
     | None | Some "" => result = Time.Returns None
     | Some e =>
         match isoparse e with
         | Time.Raises err => result = Time.Raises err
         | Time.Returns dt =>
             if max_units <=? 0
             then result = Time.Raises (Time.ValueError "max_units must be positive")
             else
               exists duration,
                 Time.humanize_delta
                   (relativedelta_between (Time.replace_microsecond_0 dt)
                      (default clock date_from))
                   "seconds" max_units = Time.Returns duration
                 /\ duration <> ""
                 /\ result = Time.Returns
                               (Some (strftime_infraction dt
                                      +:+ " (" +:+ duration +:+ ")"))
         end
     end.
Proof.
  cbv zeta. unfold Time.format_infraction_with_duration, Time.format_infraction.
  destruct expiry as [[|c e]|]; cbn [Time.no_expiry].
  - rewrite bool_decide_eq_true_2 by reflexivity. split; [split; auto | reflexivity].
  - rewrite bool_decide_eq_false_2 by discriminate.
    change (default "" (Some (String c e))) with (String c e).
    assert (Hfrom : match date_from with
                    | Some d => Time.Returns d
                    | None => Time.utcnow clock
                    end = Time.Returns (default clock date_from))
      by now destruct date_from.
    rewrite Hfrom. cbv beta iota.
    destruct (isoparse (String c e)) as [dt|err]; cbv beta iota.
    2: { split; [|reflexivity]. split; [discriminate | intros [H|H]; discriminate]. }
    pose proof (humanize_delta_outcome
                  (relativedelta_between (Time.replace_microsecond_0 dt)
                     (default clock date_from)) "seconds" max_units) as Hh.
    destruct (Time.humanize_delta _ _ _) as [duration|err] eqn:Eh; cbv beta iota zeta.
    + destruct Hh as [Hpos Hd]. rewrite bool_decide_eq_false_2 by exact Hd.
      cbn [negb]. cbv beta iota.
      split; [split; [discriminate | intros [H|H]; discriminate]|].
      destruct (max_units <=? 0) eqn:E; [apply Z.leb_le in E; lia|].
      exists duration. repeat split. exact Hd.
    + destruct Hh as [Hneg ->].
      split; [split; [discriminate | intros [H|H]; discriminate]|].
      destruct (max_units <=? 0) eqn:E; [reflexivity | apply Z.leb_gt in E; lia].
  - split; [split; auto | reflexivity].
Qed.

(** X4: [until_expiration] returns [None] exactly for a missing or empty
    expiry and for one that [isoparse] reads as a time whose whole second lies
    before the clock, whatever [max_units] then. For another expiry it raises
    what [isoparse] raises on it; for one that has not passed it raises
    [ValueError] when [max_units] is not positive and otherwise returns the
    text of the remaining time, which is never empty. *)
Theorem until_expiration_not_expired
    (isoparse : string -> Time.Outcome Z) (relativedelta_between : Z -> Z -> Time.relativedelta)
    (clock : Z) (expiry : option string) (max_units : Z) :
  let result := Time.until_expiration isoparse relativedelta_between clock expiry
                  max_units in
  (result = Time.Returns None
   <-> expiry = None \/ expiry = Some ""
       \/ exists e dt, expiry = Some e /\ isoparse e = Time.Returns dt
                       /\ Time.replace_microsecond_0 dt < clock)
  /\ match expiry with
     | None | Some "" => result = Time.Returns None
     | Some e =>
         match isoparse e with
         | Time.Raises err => result = Time.Raises err
         | Time.Returns dt =>
             if Time.replace_microsecond_0 dt <? clock then result = Time.Returns None
             else if max_units <=? 0
             then result = Time.Raises (Time.ValueError "max_units must be positive")
             else
               exists text,
                 Time.humanize_delta
                   (relativedelta_between (Time.replace_microsecond_0 dt) clock)
                   "seconds" max_units = Time.Returns text
                 /\ text <> ""
                 /\ clock <= Time.replace_microsecond_0 dt <= dt
                 /\ result = Time.Returns (Some text)
         end
     end.
Proof.
  cbv zeta. unfold Time.until_expiration.
  destruct expiry as [[|c e]|]; cbn [Time.no_expiry].
  - rewrite bool_decide_eq_true_2 by reflexivity. split; [split; auto | reflexivity].
  - rewrite bool_decide_eq_false_2 by discriminate.
    change (default "" (Some (String c e))) with (String c e).
    change (Time.utcnow clock) with (Time.Returns clock). cbv beta iota.
    destruct (isoparse (String c e)) as [dt|err] eqn:Ei; cbv beta iota zeta.
    2: { split; [|reflexivity]. split; [discriminate|].
         intros [H|[H|(e' & dt & [= <-] & H & _)]]; try discriminate. congruence. }
    destruct (Time.replace_microsecond_0 dt <? clock) eqn:El.
    { apply Z.ltb_lt in El. split; [|reflexivity].
      split; [intros _; right; right; eauto | reflexivity]. }
    apply Z.ltb_ge in El.
    assert (Hnot : ~ (Some (String c e) = None \/ Some (String c e) = Some ""
                      \/ exists e' dt', Some (String c e) = Some e'
                                        /\ isoparse e' = Time.Returns dt'
                                        /\ Time.replace_microsecond_0 dt' < clock)).
    { intros [H|[H|(e' & dt' & [= <-] & H & Hlt)]]; try discriminate.
      rewrite Ei in H. injection H as <-. lia. }
    pose proof (humanize_delta_outcome
                  (relativedelta_between (Time.replace_microsecond_0 dt) clock)
                  "seconds" max_units) as Hh.
    destruct (Time.humanize_delta _ _ _) as [text|err] eqn:Eh; cbv beta iota.
    + destruct Hh as [Hpos Hd].
      split; [split; [discriminate | intros H; now apply Hnot in H]|].
      destruct (max_units <=? 0) eqn:E; [apply Z.leb_le in E; lia|].
      exists text. repeat split; try assumption.
      unfold Time.replace_microsecond_0.
      pose proof (Z.mod_pos_bound dt 1000000 ltac:(lia)). lia.
    + destruct Hh as [Hneg ->].
      split; [split; [discriminate | intros H; now apply Hnot in H]|].
      destruct (max_units <=? 0) eqn:E; [reflexivity | apply Z.leb_gt in E; lia].
  - split; [split; auto | reflexivity].
Qed.

(** ** Spoilers *)

Lemma join_length_every_other (l : list string) :
  (String.length (Py.join (Py.every_other l))
   + String.length (Py.join (Py.every_other (tail l))))%nat
  = String.length (Py.join l).
Proof.
  induction l as [|x l IH]; [reflexivity|].
  assert (H : Py.every_other (x :: l) = x :: Py.every_other (tail l))
    by (destruct l; reflexivity).
  rewrite H. cbn [tail Py.join]. rewrite !append_length. lia.
Qed.

(** X5: the string [expand_spoilers] returns is always exactly twice as
    long as the text: the pieces of the split, each taken once, and then the
    text again. *)
Theorem expand_spoilers_length (text : string) :
  String.length (expand_spoilers text) = (2 * String.length text)%nat.
Proof.
  unfold expand_spoilers, Py.slice_step2.
  rewrite !join_app, !append_length.
  change (drop 0 (Re.SPOILER_RE_split text)) with (Re.SPOILER_RE_split text).
  replace (drop 1 (Re.SPOILER_RE_split text)) with (tail (Re.SPOILER_RE_split text))
    by (destruct (Re.SPOILER_RE_split text); reflexivity).
  rewrite Nat.add_assoc, join_length_every_other, SPOILER_RE_split_join. lia.
Qed.

Lemma split_from_odd (s : string) :
  forall (skip : nat) (seg : string),
    Nat.odd (length (Re.split_from s skip seg)) = true.
Proof.
  induction s as [|c rest IH]; intros skip seg; [reflexivity|].
  cbn [Re.split_from]. destruct skip as [|k]; [|apply IH].
  destruct (Re.SPOILER_RE_match (String c rest)); [|apply IH].
  cbn [length]. rewrite Nat.odd_succ_succ. apply IH.
Qed.

Lemma split_from_no_spoiler (s : string) :
  forall seg : string,
    Re.SPOILER_RE_search s = false -> Re.split_from s O seg = [seg +:+ s].
Proof.
  induction s as [|c rest IH]; intros seg H.
  - cbn. now rewrite append_nil_r.
  - cbn [Re.split_from Re.SPOILER_RE_search] in *.
    destruct (Re.SPOILER_RE_match (String c rest)); [discriminate|].
    rewrite IH by exact H. now rewrite append_assoc.
Qed.

Lemma split_from_spoiler (s : string) :
  forall seg : string,
    Re.SPOILER_RE_search s = true -> (3 <= length (Re.split_from s O seg))%nat.
Proof.
  induction s as [|c rest IH]; intros seg H; [discriminate|].
  cbn [Re.split_from Re.SPOILER_RE_search] in *.
  destruct (Re.SPOILER_RE_match (String c rest)) as [n|].
  - cbn [length].
    pose proof (split_from_odd rest (n - 1) "") as Ho.
    destruct (Re.split_from rest (n - 1) ""); [discriminate | cbn [length]; lia].
  - now apply IH.
Qed.

(** X6: the split on [SPOILER_RE] always has an odd number of pieces, text
    and spoilers in turn; it is the text alone exactly when the pattern is
    not found in it, and the expansion is then the text twice. *)
Theorem SPOILER_RE_split_pieces (text : string) :
  Nat.odd (length (Re.SPOILER_RE_split text)) = true
  /\ (Re.SPOILER_RE_search text = false <-> Re.SPOILER_RE_split text = [text])
  /\ (Re.SPOILER_RE_split text = [text] -> expand_spoilers text = text +:+ text).
Proof.
  unfold Re.SPOILER_RE_split. split; [apply split_from_odd|]. split.
  - split.
    + intros H. now rewrite split_from_no_spoiler.
    + intros H. destruct (Re.SPOILER_RE_search text) eqn:E; [|reflexivity].
      apply (split_from_spoiler text "") in E. rewrite H in E. cbn in E. lia.
  - intros H. unfold expand_spoilers, Re.SPOILER_RE_split. rewrite H. cbn.
    now rewrite append_nil_r.
Qed.

(** ** The watchlist on the text *)

Lemma search_from_app (m : string -> option (nat * string)) (p s : string) :
  Re.search_from m s = true -> Re.search_from m (p +:+ s) = true.
Proof.
  intros H. induction p as [|c p IH]; [exact H|].
  rewrite append_cons. cbn [Re.search_from].
  destruct (m (String c (p +:+ s))); [reflexivity | exact IH].
Qed.

Lemma URL_in_searched_text (text : string) :
  Re.URL_RE_search text = true -> Re.URL_RE_search (searched_text text) = true.
Proof.
  intros H. unfold searched_text.
  destruct (Re.SPOILER_RE_search text); [|exact H].
  unfold expand_spoilers. rewrite !join_app, SPOILER_RE_split_join.
  unfold Re.URL_RE_search in *. now do 2 apply search_from_app.
Qed.

(** X7: a text in which [URL_RE] finds a link never matches the watchlist,
    whatever the patterns, also when it has spoilers: the expansion ends
    with the text itself, so the link is found in it too. *)
Theorem watch_regex_spares_links (re_search : string -> string -> option ReMatch)
    (cfg : FilterConfig) (text : string) :
  Re.URL_RE_search text = true ->
  _has_watch_regex_match re_search cfg text = VBool false.
Proof.
  intros H. apply URL_in_searched_text in H.
  unfold _has_watch_regex_match. unfold searched_text in H. now rewrite H.
Qed.

Lemma watch_regex_spares_links_witness :
  _has_watch_regex_match Sample.literal_search Sample.cfg_names
    "what the ||heck|| https://x.test/a" = VBool false.
Proof.
  apply watch_regex_spares_links. vm_compute. reflexivity.
Defined.

Lemma first_pattern_match_first (re_search : string -> string -> option ReMatch)
    (patterns : list string) (text : string) :
  match first_pattern_match re_search patterns text with
  | VMatch m =>
      exists pre pattern post,
        patterns = pre ++ pattern :: post
        /\ re_search pattern text = Some m
        /\ Forall (fun p => re_search p text = None) pre
  | VNone => Forall (fun p => re_search p text = None) patterns
  | _ => False
  end.
Proof.
  induction patterns as [|p rest IH]; cbn [first_pattern_match]; [constructor|].
  destruct (re_search p text) as [m|] eqn:E.
  - exists [], p, rest. repeat split; [exact E | constructor].
  - destruct (first_pattern_match re_search rest text); try contradiction.
    + now constructor.
    + destruct IH as (pre & q & post & -> & Hq & Hpre).
      exists (p :: pre), q, post. repeat split; [exact Hq | now constructor].
Qed.

(** X8: [_has_watch_regex_match] answers with the match of the first
    pattern that is found in the searched text, the word patterns between
    [\b] before the token patterns; with [False] when the searched text has a
    link; and with [None] when no pattern is found. It never answers [True]
    or a dict. *)
Theorem watch_regex_first_pattern (re_search : string -> string -> option ReMatch)
    (cfg : FilterConfig) (text : string) :
  match _has_watch_regex_match re_search cfg text with
  | VMatch m =>
      Re.URL_RE_search (searched_text text) = false
      /\ exists pre pattern post,
           map (fun expression => "\b" +:+ expression +:+ "\b") (word_watchlist cfg)
           ++ token_watchlist cfg = pre ++ pattern :: post
           /\ re_search pattern (searched_text text) = Some m
           /\ Forall (fun p => re_search p (searched_text text) = None) pre
  | VNone =>
      Re.URL_RE_search (searched_text text) = false
      /\ Forall (fun p => re_search p (searched_text text) = None)
           (map (fun expression => "\b" +:+ expression +:+ "\b") (word_watchlist cfg)
            ++ token_watchlist cfg)
  | VBool b => b = false /\ Re.URL_RE_search (searched_text text) = true
  | VDict _ => False
  end.
Proof.
  unfold _has_watch_regex_match. fold (searched_text text).
  destruct (Re.URL_RE_search (searched_text text)) eqn:E; [now split|].
  pose proof (first_pattern_match_first re_search (WATCHLIST_PATTERNS cfg)
                (searched_text text)) as H.
  destruct (first_pattern_match re_search (WATCHLIST_PATTERNS cfg) (searched_text text));
    try contradiction; (split; [reflexivity | exact H]).
Qed.

(** ** Invites *)








Lemma remove_char_app (c : ascii) (a b : string) :
  Py.remove_char c (a +:+ b) = Py.remove_char c a +:+ Py.remove_char c b.
Proof.
  induction a as [|x a IH]; [reflexivity|].
  rewrite append_cons. cbn [Py.remove_char].
  destruct (Ascii.eqb x c); [exact IH | now rewrite append_cons, IH].
Qed.

(** X10: a backslash put anywhere in a text changes nothing to what
    [_has_invites] does: the same lookups and the same answer. *)
Theorem has_invites_ignores_backslashes (cfg : FilterConfig) (env : Env)
    (before after : string) :
  _has_invites cfg env (before +:+ "\" +:+ after)
  = _has_invites cfg env (before +:+ after).
Proof.
  unfold _has_invites. rewrite !remove_char_app. reflexivity.
Qed.

Lemma dict_has_false {V : Type} (key : string) (d : list (string * V)) :
  Py.dict_has key d = false <-> key ∉ d.*1.
Proof.
  unfold Py.dict_has. induction d as [|[k v] d IH]; cbn [existsb fmap list_fmap fst].
  - split; [set_solver | reflexivity].
  - rewrite orb_false_iff, IH, not_elem_of_cons, String.eqb_neq. reflexivity.
Qed.

Lemma dict_set_absent {V : Type} (key : string) (v : V) (d : list (string * V)) :
  Py.dict_has key d = false -> Py.dict_set key v d = d ++ [(key, v)].
Proof.
  unfold Py.dict_has. induction d as [|[k v'] d IH]; cbn [existsb Py.dict_set app fst];
    [reflexivity|].
  intros H. apply orb_false_iff in H as [Hk H]. rewrite Hk. now rewrite IH.
Qed.

(** What the loop of [_has_invites] returns, from any [invite_data] whose
    entries are of codes of the text with a guild that is not allowed. *)
Lemma invites_loop_result (cfg : FilterConfig) (env : Env) (codes : list string) :
  forall invites invite_data,
    invites ⊆ codes ->
    NoDup invite_data.*1 ->
    Forall (reported_invite cfg env codes) invite_data ->
    match (invites_loop cfg env invites invite_data).2 with
    | Ok (VDict d) =>
        d <> [] /\ NoDup d.*1 /\ Forall (reported_invite cfg env codes) d
    | Ok (VBool true) => exists code, code ∈ codes /\ invite_api env code = None
    | Ok (VBool false) => invite_data = []
    | Ok _ => False
    | Raise e => exists code, code ∈ codes /\ raises env (GetInvite code) = Some e
    end.
Proof.
  induction invites as [|invite rest IH]; intros data Hsub Hnd Hall.
  - cbn. destruct (bool_decide (data = [])) eqn:E.
    + now apply bool_decide_eq_true in E.
    + apply bool_decide_eq_false in E. cbn. auto.
  - assert (Hin : invite ∈ codes) by (apply Hsub; apply list_elem_of_here).
    assert (Hrest : rest ⊆ codes)
      by (intros x Hx; apply Hsub; now apply list_elem_of_further).
    cbn [invites_loop].
    destruct (Py.dict_has invite data) eqn:Hhas; [now apply IH|].
    unfold bind, call.
    destruct (raises env (GetInvite invite)) as [e|] eqn:Hr; [cbn; eauto|].
    destruct (invite_api env invite) as [response|] eqn:Hapi; [|cbn; eauto].
    destruct (bool_decide (guild_id response ∈ guild_invite_whitelist cfg)) eqn:Hwl;
      cbn [negb].
    + specialize (IH data Hrest Hnd Hall).
      destruct (invites_loop cfg env rest data) as [t r]. exact IH.
    + apply bool_decide_eq_false in Hwl.
      rewrite dict_set_absent by exact Hhas.
      fold (info_of response).
      assert (Hnd' : NoDup (data ++ [(invite, info_of response)]).*1).
      { rewrite fmap_app. apply NoDup_app. split; [exact Hnd|]. split.
        - intros x Hx Hx'. cbn in Hx'. apply list_elem_of_singleton in Hx' as ->.
          now apply dict_has_false in Hhas.
        - cbn. apply NoDup_singleton. }
      assert (Hall' : Forall (reported_invite cfg env codes)
                        (data ++ [(invite, info_of response)])).
      { apply Forall_app. split; [exact Hall|]. constructor; [|constructor].
        split; [exact Hin|]. exists response. now repeat split. }
      specialize (IH _ Hrest Hnd' Hall').
      destruct (invites_loop cfg env rest (data ++ [(invite, info_of response)]))
        as [t [[|[|]| |]|e]]; cbn [snd] in *; try exact IH.
      exfalso. now destruct data.
Qed.

(** X11: when [_has_invites] answers with a dict, the dict is not empty,
    its keys are distinct codes of the text, and each entry is what the
    endpoint says of a guild that is not in the whitelist. It answers [True]
    only when some code of the text resolves to no guild, and raises only
    what a lookup raised. *)
Theorem has_invites_result (cfg : FilterConfig) (env : Env) (text : string) :
  match (_has_invites cfg env text).2 with
  | Ok (VDict d) =>
      d <> [] /\ NoDup d.*1 /\ Forall (reported_invite cfg env (invites_of text)) d
  | Ok (VBool true) => exists code, code ∈ invites_of text /\ invite_api env code = None
  | Ok (VBool false) => True
  | Ok _ => False
  | Raise e => exists code, code ∈ invites_of text /\ raises env (GetInvite code) = Some e
  end.
Proof.
  unfold _has_invites. fold (invites_of text).
  pose proof (invites_loop_result cfg env (invites_of text) (invites_of text) []
                (fun x H => H) (NoDup_nil_2) (Forall_nil_2 _)) as H.
  destruct (invites_loop cfg env (invites_of text) []) as [t [[|[|]| |]|e]];
    cbn [snd] in *; auto.
Qed.

Lemma invites_loop_allowed (cfg : FilterConfig) (env : Env) (invites : list string) :
  (forall code, raises env (GetInvite code) = None) ->
  Forall (fun code => exists response,
            invite_api env code = Some response
            /\ guild_id response ∈ guild_invite_whitelist cfg) invites ->
  invites_loop cfg env invites [] = (map GetInvite invites, Ok (VBool false)).
Proof.
  intros Hquiet. induction 1 as [|invite rest (response & Hapi & Hwl) _ IH];
    [reflexivity|].
  cbn [invites_loop Py.dict_has existsb]. unfold bind, call.
  rewrite Hquiet, Hapi, (bool_decide_eq_true_2 _ Hwl). cbn [negb].
  now rewrite IH.
Qed.

(** X12: when every lookup goes through and every code of the text leads
    to a guild of the whitelist, [_has_invites] answers [False] after one
    lookup for each occurrence of a code, in the order of the text. *)
Theorem has_invites_all_allowed (cfg : FilterConfig) (env : Env) (text : string) :
  (forall code, raises env (GetInvite code) = None) ->
  Forall (fun code => exists response,
            invite_api env code = Some response
            /\ guild_id response ∈ guild_invite_whitelist cfg) (invites_of text) ->
  _has_invites cfg env text = (map GetInvite (invites_of text), Ok (VBool false)).
Proof. intros Hquiet Hall. now apply invites_loop_allowed. Qed.

Lemma has_invites_all_allowed_witness :
  _has_invites Sample.cfg Sample.env "come to discord.gg/abc, discord.gg/abc"
  = ([GetInvite "abc"; GetInvite "abc"], Ok (VBool false)).
Proof.
  apply (has_invites_all_allowed Sample.cfg Sample.env
           "come to discord.gg/abc, discord.gg/abc").
  - intros code. reflexivity.
  - change (invites_of "come to discord.gg/abc, discord.gg/abc") with ["abc"; "abc"].
    repeat (constructor; [eexists; split; [reflexivity | apply list_elem_of_here]|]).
    constructor.
Defined.

Lemma invites_loop_lookups (cfg : FilterConfig) (env : Env) :
  forall invites invite_data,
    Forall (fun a => exists code, a = GetInvite code /\ code ∈ invites)
           (invites_loop cfg env invites invite_data).1
    /\ (length (invites_loop cfg env invites invite_data).1 <= length invites)%nat.
Proof.
  induction invites as [|invite rest IH]; intros data.
  - cbn. destruct (bool_decide (data = [])); cbn; split; (constructor || lia).
  - assert (Hweak : forall t,
               Forall (fun a => exists code, a = GetInvite code /\ code ∈ rest) t ->
               Forall (fun a => exists code, a = GetInvite code /\ code ∈ invite :: rest) t).
    { intros t Ht. eapply Forall_impl; [exact Ht|]. intros a (code & -> & Hc).
      exists code. split; [reflexivity | now apply list_elem_of_further]. }
    assert (Hhead : exists code, GetInvite invite = GetInvite code /\ code ∈ invite :: rest)
      by (exists invite; split; [reflexivity | apply list_elem_of_here]).
    cbn [invites_loop].
    destruct (Py.dict_has invite data).
    { destruct (IH data) as [H1 H2]. split; [now apply Hweak | cbn [length]; lia]. }
    unfold bind, call.
    destruct (raises env (GetInvite invite)).
    { cbn. split; [repeat constructor; exact Hhead | lia]. }
    destruct (invite_api env invite) as [response|].
    + destruct (negb (bool_decide (guild_id response ∈ guild_invite_whitelist cfg)));
        match goal with
        | |- context [invites_loop cfg env rest ?d] =>
            destruct (IH d) as [H1 H2]; destruct (invites_loop cfg env rest d) as [t r]
        end;
        cbn [fst app length] in *;
        (split; [constructor; [exact Hhead | now apply Hweak] | lia]).
    + cbn. split; [repeat constructor; exact Hhead | lia].
Qed.

(** X13: [_has_invites] calls nothing but the invite endpoint, only for
    codes found in the text and no more often than codes occur in it; on a
    text without an invite it makes no call. *)
Theorem has_invites_lookups (cfg : FilterConfig) (env : Env) (text : string) :
  Forall (fun a => exists code, a = GetInvite code /\ code ∈ invites_of text)
         (_has_invites cfg env text).1
  /\ (length (_has_invites cfg env text).1 <= length (invites_of text))%nat.
Proof. apply invites_loop_lookups. Qed.

(** X14: a code that resolves to no guild, or to a guild that is not in
    the whitelist, is looked up at most once for a text, however often it
    occurs in it. *)
Theorem invite_not_allowed_looked_up_once (cfg : FilterConfig) (env : Env)
    (code text : string) :
  match invite_api env code with
  | None => True
  | Some response => guild_id response ∉ guild_invite_whitelist cfg
  end ->
  (count_calls (is_lookup code) (_has_invites cfg env text).1 <= 1)%nat.
Proof.
  intros H. unfold _has_invites.
  apply (invites_loop_once cfg env code H (Re.INVITE_RE_findall _) []).
Qed.

Lemma invite_not_allowed_looked_up_once_witness :
  (count_calls (is_lookup "xyz")
     (_has_invites Sample.cfg Sample.env "discord.gg/xyz discord.gg/xyz").1 <= 1)%nat.
Proof.
  apply invite_not_allowed_looked_up_once.
  vm_compute. intros H.
  repeat (apply elem_of_cons in H as [H|H]; [discriminate|]).
  now apply elem_of_nil in H.
Defined.

(** ** What a run of the filter may do *)

Lemma bind_Forall {A B : Type} (P : Action -> Prop) (m : M A) (k : A -> M B) :
  Forall P m.1 -> (forall a, m.2 = Ok a -> Forall P (k a).1) -> Forall P (bind m k).1.
Proof.
  destruct m as [t [a|e]]; cbn; intros Ht Hk; [|exact Ht].
  specialize (Hk a eq_refl). destruct (k a) as [t' r]. cbn in *.
  apply Forall_app. now split.
Qed.

Lemma try_except_Forall {A : Type} (P : Action -> Prop) (m : M A)
    (catches : exn -> bool) (h : M A) :
  Forall P m.1 -> Forall P h.1 -> Forall P (try_except m catches h).1.
Proof.
  destruct m as [t [a|e]]; cbn; intros Ht Hh; [exact Ht|].
  destruct (catches e); [|exact Ht].
  destruct h as [t' r]. cbn in *. apply Forall_app. now split.
Qed.

Lemma call_Forall (P : Action -> Prop) (env : Env) (a : Action) :
  P a -> Forall P (call env a).1.
Proof. intros H. cbn. now repeat constructor. Qed.

Lemma getitem_Forall {A : Type} (P : Action -> Prop) (o : option A) (key : string) :
  Forall P (getitem o key).1.
Proof. destruct o; constructor. Qed.

Lemma getitem_Ok {A : Type} (o : option A) (key : string) (v : A) :
  (getitem o key).2 = Ok v -> o = Some v.
Proof. destruct o; cbn; congruence. Qed.

Lemma message_content_quiet escape msg filter_name match_ (P : Action -> Prop) :
  Forall P (message_content_of escape msg filter_name match_).1.
Proof.
  unfold message_content_of.
  destruct (String.eqb filter_name "watch_regex"); [destruct match_|]; constructor.
Qed.

Lemma additional_embeds_quiet msg filter_name match_ (P : Action -> Prop) :
  Forall P (additional_embeds_of msg filter_name match_).1.
Proof.
  unfold additional_embeds_of.
  destruct (_ && _); [destruct match_; constructor|].
  destruct (String.eqb filter_name "watch_rich_embeds"); constructor.
Qed.

(** Every call of the body of [if match:] fits the filter and the message. *)
Lemma on_match_allowed escape cfg env msg filter_name f match_ :
  Forall (allowed_action cfg msg f) (on_match escape cfg env msg filter_name f match_).1.
Proof.
  unfold on_match. apply bind_Forall.
  - destruct (String.eqb (type f) "filter" && negb (is_private msg)) eqn:Hf; [|constructor].
    apply andb_true_iff in Hf as [Hty Hpr].
    apply String.eqb_eq in Hty. apply negb_true_iff in Hpr.
    unfold delete_and_notify. apply bind_Forall.
    + apply try_except_Forall; [|constructor].
      apply bind_Forall; [apply call_Forall; now cbn | intros; constructor].
    + intros deleted _. destruct deleted; [|constructor].
      apply bind_Forall; [apply getitem_Forall|].
      intros notify Hn. apply getitem_Ok in Hn.
      apply bind_Forall; [|intros; constructor].
      destruct notify; [|constructor].
      apply bind_Forall; [apply getitem_Forall|].
      intros reason _. unfold notify_member.
      apply try_except_Forall; apply call_Forall; now cbn.
  - intros go _. destruct (negb go); [constructor|].
    apply bind_Forall; [apply getitem_Forall|].
    intros sched Hs. apply getitem_Ok in Hs.
    apply bind_Forall.
    + destruct (sched && negb (is_private msg)) eqn:Hsp; [|constructor].
      apply andb_true_iff in Hsp as [-> Hpr]. apply negb_true_iff in Hpr.
      unfold schedule_offensive. cbv zeta.
      apply bind_Forall; [apply call_Forall; now cbn|].
      intros _ _. apply call_Forall. now cbn.
    + intros _ _. cbv zeta.
      apply bind_Forall; [apply message_content_quiet|]. intros content _.
      apply bind_Forall; [apply call_Forall; exact I|]. intros _ _.
      apply bind_Forall; [apply additional_embeds_quiet|]. intros extra _.
      apply bind_Forall; [apply call_Forall; exact I|]. intros _ _. constructor.
Qed.

(** The calls of a run are those of one body of [if match:], for an enabled
    filter of the table that the double trigger check does not hold back and
    whose function answered with a match. *)
Lemma filter_loop_actions escape cfg env msg delta items :
  actions_of (filter_loop escape cfg env msg delta items).1 = []
  \/ exists n f v,
       (n, f) ∈ items /\ enabled f = true /\ double_trigger n delta = false
       /\ truthy v = true
       /\ actions_of (filter_loop escape cfg env msg delta items).1
          = map (pair n) (on_match escape cfg env msg n f v).1.
Proof.
  induction items as [|[n f] items IH]; [now left|].
  assert (Hlater : (actions_of (filter_loop escape cfg env msg delta items).1 = []
                    \/ exists n0 f0 v,
                         (n0, f0) ∈ (n, f) :: items /\ enabled f0 = true
                         /\ double_trigger n0 delta = false /\ truthy v = true
                         /\ actions_of (filter_loop escape cfg env msg delta items).1
                            = map (pair n0) (on_match escape cfg env msg n0 f0 v).1)).
  { destruct IH as [IH|(n0 & f0 & v & Hin & IH)]; [now left|].
    right. exists n0, f0, v. split; [now apply list_elem_of_further | exact IH]. }
  cbn [filter_loop]. unfold filter_body.
  destruct (enabled f) eqn:He; cbn [negb].
  2:{ destruct (filter_loop escape cfg env msg delta items). exact Hlater. }
  destruct (double_trigger n delta) eqn:Hd.
  { destruct (filter_loop escape cfg env msg delta items). exact Hlater. }
  destruct (matcher_result msg f) as [tm [v|e]].
  2:{ left. cbn [fst map actions_of]. apply actions_of_matching. }
  destruct (truthy v) eqn:Hv.
  - pose proof (on_match_ends escape cfg env msg n f v) as Hends. unfold ends in Hends.
    destruct (on_match escape cfg env msg n f v) as [ta ra] eqn:Eon.
    assert (Hhere : actions_of (map (pair n) (Evaluate :: map Matching tm ++ map Acting ta))
                    = map (pair n) ta).
    { cbn [map actions_of]. rewrite map_app, actions_of_app, actions_of_matching.
      apply actions_of_acting. }
    right. exists n, f, v. rewrite Eon. cbn [fst snd] in *.
    split; [apply list_elem_of_here|]. repeat split; try assumption.
    destruct ra as [[| |]|e]; cbn [fst]; try exact Hhere. contradiction.
  - destruct (filter_loop escape cfg env msg delta items) as [t' r'].
    cbn [fst] in *. rewrite actions_of_app.
    replace (actions_of (map (pair n) (Evaluate :: map Matching tm))) with
      (@nil (string * Action)) by (symmetry; apply (actions_of_matching n tm)).
    exact Hlater.
Qed.

Lemma actions_of_elem (t : list (string * Step)) (n : string) (a : Action) :
  (n, Acting a) ∈ t <-> (n, a) ∈ actions_of t.
Proof.
  induction t as [|[n' [| |a']] t IH]; cbn [actions_of].
  - split; intros H; now apply elem_of_nil in H.
  - rewrite elem_of_cons, IH. split; [intros [[=]|H]; exact H | now right].
  - rewrite elem_of_cons, IH. split; [intros [[=]|H]; exact H | now right].
  - rewrite !elem_of_cons, IH. split; (intros [[= -> ->]|H]; [now left | now right]).
Qed.

Lemma run_actions_allowed escape cfg env items msg delta n a :
  (n, Acting a) ∈ (_filter_message escape cfg env items msg delta).1 ->
  filter_message cfg msg = true
  /\ exists f, (n, f) ∈ items /\ enabled f = true /\ double_trigger n delta = false
               /\ allowed_action cfg msg f a.
Proof.
  unfold _filter_message. destruct (filter_message cfg msg); [|cbn; set_solver].
  intros H. split; [reflexivity|]. apply actions_of_elem in H.
  destruct (filter_loop_actions escape cfg env msg delta items)
    as [E|(n0 & f & v & Hin & He & Hd & _ & E)]; rewrite E in H; [set_solver|].
  apply list_elem_of_fmap in H as (b & [= -> ->] & Hb).
  exists f. repeat split; try assumption.
  pose proof (on_match_allowed escape cfg env msg n0 f v) as Hall.
  rewrite Forall_forall in Hall. now apply Hall.
Qed.

(** X15: whatever the table, every call a run makes after a match comes
    from the turn of an enabled filter of the table on a message that is not
    exempt, and it is of one of these kinds: a delete of that very message or
    a notice to its author or channel, by a filter of type ["filter"] outside
    DMs (the notice only when the filter asks for it); a post to the site and
    a scheduling of the record of that message, due the configured number of
    days after its creation, by a filter with [schedule_deletion] outside
    DMs; or the counter and the mod log entry. *)
Theorem run_actions_fit escape cfg env (self_filters : list (string * FilterEntry))
    (msg : Message) (delta : option Z) (n : string) (a : Action) :
  (n, Acting a) ∈ (_filter_message escape cfg env self_filters msg delta).1 ->
  filter_message cfg msg = true
  /\ exists f, (n, f) ∈ self_filters /\ enabled f = true
               /\ double_trigger n delta = false
               /\ allowed_action cfg msg f a.
Proof. apply run_actions_allowed. Qed.

Lemma run_actions_fit_witness :
  filter_message Sample.cfg Sample.invite_post = true
  /\ exists f, ("filter_invites", f) ∈ Sample.table Sample.env
               /\ enabled f = true
               /\ double_trigger "filter_invites" None = false
               /\ allowed_action Sample.cfg Sample.invite_post f (DeleteMessage 13).
Proof.
  apply (run_actions_fit Sample.escape Sample.cfg Sample.env (Sample.table Sample.env)
           Sample.invite_post None "filter_invites" (DeleteMessage 13)).
  vm_compute. repeat first [apply list_elem_of_here | apply list_elem_of_further].
Defined.

(** ** The order of the calls *)

Lemma follows_nil (kinds : list (Action -> bool)) : follows kinds [] = true.
Proof. destruct kinds; reflexivity. Qed.

Lemma follows_tail (kinds : list (Action -> bool)) :
  forall a t, follows kinds (a :: t) = true -> follows kinds t = true.
Proof.
  induction kinds as [|k kinds IH]; intros a t H; [discriminate|].
  destruct t as [|b t]; [reflexivity|].
  cbn [follows] in *. destruct (k a).
  - destruct (k b); [now apply (IH b) | exact H].
  - apply IH in H. destruct (k b); [now apply (IH b) | exact H].
Qed.

Lemma follows_weaken (k : Action -> bool) (kinds : list (Action -> bool)) (t : list Action) :
  follows kinds t = true -> follows (k :: kinds) t = true.
Proof.
  intros H. destruct t as [|a t]; [reflexivity|]. cbn [follows].
  destruct (k a); [now apply (follows_tail kinds a) | exact H].
Qed.

Lemma follows_prepend (kinds kinds' : list (Action -> bool)) (t : list Action) :
  follows kinds' t = true -> follows (kinds ++ kinds') t = true.
Proof.
  intros H. induction kinds as [|k kinds IH]; [exact H|]. now apply follows_weaken.
Qed.

Lemma follows_app (kinds1 kinds2 : list (Action -> bool)) :
  forall t1 t2,
    follows kinds1 t1 = true -> follows kinds2 t2 = true ->
    follows (kinds1 ++ kinds2) (t1 ++ t2) = true.
Proof.
  induction kinds1 as [|k kinds1 IH]; intros t1 t2 H1 H2.
  - cbn in H1. apply bool_decide_eq_true in H1 as ->. exact H2.
  - destruct t1 as [|a t1].
    + now apply (follows_prepend (k :: kinds1)).
    + cbn [app follows] in *. destruct (k a); [now apply IH|].
      now apply (IH (a :: t1) t2).
Qed.

Lemma bind_follows {A B : Type} (kinds1 kinds2 : list (Action -> bool))
    (m : M A) (k : A -> M B) :
  follows kinds1 m.1 = true ->
  (forall a, follows kinds2 (k a).1 = true) ->
  follows (kinds1 ++ kinds2) (bind m k).1 = true.
Proof.
  destruct m as [t [a|e]]; cbn [fst bind]; intros H1 H2.
  - specialize (H2 a). destruct (k a) as [t' r]. now apply follows_app.
  - rewrite <- (app_nil_r t). apply follows_app; [exact H1 | apply follows_nil].
Qed.

Lemma try_except_follows {A : Type} (kinds1 kinds2 : list (Action -> bool))
    (m : M A) (catches : exn -> bool) (h : M A) :
  follows kinds1 m.1 = true -> follows kinds2 h.1 = true ->
  follows (kinds1 ++ kinds2) (try_except m catches h).1 = true.
Proof.
  destruct m as [t [a|e]]; cbn [fst try_except]; intros H1 H2.
  - rewrite <- (app_nil_r t). apply follows_app; [exact H1 | apply follows_nil].
  - destruct (catches e).
    + destruct h as [t' r]. now apply follows_app.
    + rewrite <- (app_nil_r t). apply follows_app; [exact H1 | apply follows_nil].
Qed.

Lemma call_follows (kind : Action -> bool) (env : Env) (a : Action) :
  kind a = true -> follows [kind] (call env a).1 = true.
Proof. intros H. cbn. now rewrite H. Qed.

Lemma quiet_follows (t : list Action) :
  Forall (fun _ => False) t -> follows [] t = true.
Proof. intros H. destruct t; [reflexivity | now apply Forall_cons in H as [[] _]]. Qed.

Lemma on_match_order escape cfg env msg filter_name f match_ :
  follows dispatch_order (on_match escape cfg env msg filter_name f match_).1 = true.
Proof.
  unfold on_match.
  apply (bind_follows [is_delete; is_dm; is_channel_notice]
           [is_post; is_schedule; is_stats; is_alert]).
  - destruct (_ && _); [|apply follows_nil].
    unfold delete_and_notify.
    apply (bind_follows [is_delete] [is_dm; is_channel_notice]).
    + apply (try_except_follows [is_delete] []); [|reflexivity].
      apply (bind_follows [is_delete] []); [now apply call_follows | reflexivity].
    + intros deleted. destruct deleted; [|apply follows_nil].
      apply (bind_follows [] [is_dm; is_channel_notice]);
        [apply quiet_follows, getitem_Forall|].
      intros notify.
      apply (bind_follows [is_dm; is_channel_notice] []); [|reflexivity].
      destruct notify; [|apply follows_nil].
      apply (bind_follows [] [is_dm; is_channel_notice]);
        [apply quiet_follows, getitem_Forall|].
      intros reason. unfold notify_member.
      apply (try_except_follows [is_dm] [is_channel_notice]); now apply call_follows.
  - intros go. destruct (negb go); [apply follows_nil|].
    apply (bind_follows [] [is_post; is_schedule; is_stats; is_alert]);
      [apply quiet_follows, getitem_Forall|].
    intros sched.
    apply (bind_follows [is_post; is_schedule] [is_stats; is_alert]).
    + destruct (_ && _); [|apply follows_nil].
      unfold schedule_offensive. cbv zeta.
      apply (bind_follows [is_post] [is_schedule]); [now apply call_follows|].
      intros _. now apply call_follows.
    + intros _. cbv zeta.
      apply (bind_follows [] [is_stats; is_alert]);
        [apply quiet_follows, message_content_quiet|].
      intros content.
      apply (bind_follows [is_stats] [is_alert]); [now apply call_follows|].
      intros _.
      apply (bind_follows [] [is_alert]); [apply quiet_follows, additional_embeds_quiet|].
      intros extra.
      apply (bind_follows [is_alert] []); [now apply call_follows | reflexivity].
Qed.

(** X16: after a match, a run makes its calls in one fixed order and each
    at most once: the delete, the DM to the author, the notice in the
    channel, the post to the site, the scheduling, the counter, the mod log
    entry. Any of them may be missing; none comes twice or out of turn,
    whatever the table and whatever fails. *)
Theorem run_calls_in_order escape cfg env (self_filters : list (string * FilterEntry))
    (msg : Message) (delta : option Z) :
  follows dispatch_order
    (run_actions (_filter_message escape cfg env self_filters msg delta).1) = true.
Proof.
  unfold _filter_message, run_actions.
  destruct (filter_message cfg msg); [|reflexivity].
  destruct (filter_loop_actions escape cfg env msg delta self_filters)
    as [E|(n & f & v & _ & _ & _ & _ & E)]; rewrite E; [reflexivity|].
  rewrite map_map. cbn [snd]. rewrite map_id. apply on_match_order.
Qed.

Lemma run_actions_elem (t : list (string * Step)) (a : Action) :
  a ∈ run_actions t -> exists n, (n, Acting a) ∈ t.
Proof.
  unfold run_actions. intros H.
  apply list_elem_of_fmap in H as ([n a'] & -> & H).
  exists n. now apply actions_of_elem.
Qed.

(** X17: in a private channel a run never deletes, notifies, posts to the
    site or schedules: whatever the table, all it does after a match is to
    count and to write to the mod log. *)
Theorem private_run_only_reports escape cfg env
    (self_filters : list (string * FilterEntry)) (msg : Message) (delta : option Z) :
  is_private msg = true ->
  Forall (fun a => is_report a = true)
         (run_actions (_filter_message escape cfg env self_filters msg delta).1).
Proof.
  intros Hpriv. apply Forall_forall. intros a Ha.
  apply run_actions_elem in Ha as [n Ha].
  apply run_actions_allowed in Ha as (_ & f & _ & _ & _ & Hall).
  destruct a; cbn in Hall |- *; try reflexivity; try contradiction;
    exfalso; intuition congruence.
Qed.

Lemma private_run_only_reports_witness :
  Forall (fun a => is_report a = true)
         (run_actions (_filter_message Sample.escape Sample.cfg Sample.env
                         (Sample.table Sample.env) Cases.invite_dm None).1)
  /\ length (run_actions (_filter_message Sample.escape Sample.cfg Sample.env
                            (Sample.table Sample.env) Cases.invite_dm None).1) = 2%nat.
Proof.
  split; [|reflexivity].
  apply private_run_only_reports. reflexivity.
Defined.

(** No filter of the table of [__init__] both deletes and schedules. *)
Lemma filters_delete_or_schedule re_search cfg env z w t (n : string) (f : FilterEntry) :
  (n, f) ∈ filters re_search cfg env z w t ->
  type f = "filter" -> schedule_deletion f = Some true -> False.
Proof.
  unfold filters. intros Hin Hty Hs.
  repeat (apply elem_of_cons in Hin as [[= -> ->]|Hin];
          [cbn in Hty, Hs; congruence|]).
  now apply elem_of_nil in Hin.
Qed.

(** X18: with the table that [__init__] builds, whatever the configuration
    and the three functions it takes from elsewhere, no run both deletes the
    message and posts it to the site for a deferred deletion. *)
Theorem filters_never_delete_and_schedule escape re_search cfg env
    (z w t : string -> M MatchValue) (msg : Message) (delta : option Z) :
  let run := _filter_message escape cfg env (filters re_search cfg env z w t) msg delta in
  existsb is_delete (run_actions run.1) && existsb is_post (run_actions run.1) = false.
Proof.
  cbv zeta. apply not_true_is_false. intros H.
  apply andb_true_iff in H as [Hd Hp].
  apply existsb_exists in Hd as (a1 & H1 & Hd).
  apply existsb_exists in Hp as (a2 & H2 & Hp).
  apply list_elem_of_In in H1, H2.
  unfold _filter_message, run_actions in H1, H2.
  destruct (filter_message cfg msg); [|cbn in H1; set_solver].
  destruct (filter_loop_actions escape cfg env msg delta (filters re_search cfg env z w t))
    as [E|(n & f & v & Hin & _ & _ & _ & E)]; rewrite E in H1, H2; [cbn in H1; set_solver|].
  rewrite map_map in H1, H2. cbn [snd] in H1, H2. rewrite map_id in H1, H2.
  pose proof (on_match_allowed escape cfg env msg n f v) as Hall.
  rewrite Forall_forall in Hall.
  pose proof (Hall a1 H1) as A1. pose proof (Hall a2 H2) as A2.
  destruct a1; try discriminate. destruct a2; try discriminate.
  cbn in A1, A2. destruct A1 as (_ & Hty & _). destruct A2 as (_ & Hs & _).
  exact (filters_delete_or_schedule re_search cfg env z w t n f Hin Hty Hs).
Qed.

(** ** The double trigger check on edits *)

Lemma evaluates_tagged (name n : string) (t : list Step) :
  name <> n -> evaluates name (map (pair n) t) = false.
Proof.
  intros Hne. unfold evaluates. induction t as [|s t IH]; [reflexivity|].
  cbn [map existsb]. rewrite IH, orb_false_r.
  destruct s; try reflexivity. apply String.eqb_neq. congruence.
Qed.

Lemma filter_loop_held_back escape cfg env msg delta name items :
  double_trigger name delta = true ->
  evaluates name (filter_loop escape cfg env msg delta items).1 = false.
Proof.
  intros Hd. induction items as [|[n f] items IH]; [reflexivity|].
  cbn [filter_loop].
  assert (Hhead : evaluates name
                    (map (pair n) (filter_body escape cfg env msg delta n f).1) = false).
  { destruct (String.eqb_spec name n) as [<-|Hne]; [|now apply evaluates_tagged].
    unfold filter_body. rewrite Hd. now destruct (negb (enabled f)). }
  destruct (filter_body escape cfg env msg delta n f) as [t [[| |]|e]];
    cbn [fst] in *; try exact Hhead.
  destruct (filter_loop escape cfg env msg delta items) as [t' r'].
  cbn [fst] in *. now rewrite evaluates_app, Hhead, IH.
Qed.

(** X19: an edit event whose [after.edited_at] is [None], as when the
    platform only adds an embed, has a delta of 0; on such an event, and on
    any edit whose delta is below 100, the function of the rich embed filter
    is not called, whatever the table. *)
Theorem edit_holds_back_rich_embeds escape cfg env
    (self_filters : list (string * FilterEntry)) (before after : Message) :
  edited_at after = None \/ edit_delta before after < 100 ->
  (edited_at after = None -> edit_delta before after = 0)
  /\ evaluates "watch_rich_embeds"
       (on_message_edit escape cfg env self_filters before after).1 = false.
Proof.
  intros H.
  assert (H0 : edited_at after = None -> edit_delta before after = 0).
  { intros E. unfold edit_delta. rewrite E. now destruct (edited_at before). }
  split; [exact H0|].
  unfold on_message_edit, _filter_message.
  destruct (filter_message cfg after); [|reflexivity].
  apply filter_loop_held_back. unfold double_trigger. cbn [String.eqb Ascii.eqb].
  rewrite ?String.eqb_refl. cbn [andb]. apply Z.ltb_lt.
  destruct H as [E|E]; [rewrite (H0 E); lia | exact E].
Qed.

Lemma edit_holds_back_rich_embeds_witness :
  evaluates "watch_rich_embeds"
    (on_message_edit Sample.escape Sample.cfg Sample.env (Sample.table Sample.env)
       Sample.posted Sample.posted).1 = false.
Proof.
  apply (edit_holds_back_rich_embeds Sample.escape Sample.cfg Sample.env
           (Sample.table Sample.env) Sample.posted Sample.posted).
  left. reflexivity.
Defined.

(** ** Exempt messages *)

Lemma filter_message_exempt (cfg : FilterConfig) (msg : Message) :
  filter_message cfg msg = false <-> exempt cfg msg.
Proof.
  unfold filter_message, exempt.
  rewrite !andb_false_iff, !negb_false_iff, andb_true_iff, bool_decide_eq_true.
  rewrite existsb_exists.
  split.
  - intros [[H|H]|H]; [now left | right; left | now right; right].
    destruct H as [Hm (role & Hin & Hr)]. split; [exact Hm|].
    exists role. apply bool_decide_eq_true in Hr. apply list_elem_of_In in Hin. now split.
  - intros [H|[H|H]]; [now left; left | left; right | now right].
    destruct H as [Hm (role & Hin & Hr)]. split; [exact Hm|].
    exists role. split; [now apply list_elem_of_In | now apply bool_decide_eq_true].
Qed.

(** X20: a message is exempt when its channel is in the channel whitelist,
    or its author is a [Member] with a role of the role whitelist, or its
    author is a bot, and in no other case. For an exempt message no filter
    function is called and nothing is done, and [on_message] still runs the
    username check on its author. Any other message is filtered: the run is
    the loop over the table of filters. *)
Theorem exempt_message_untouched escape re_search cfg env
    (self_filters : list (string * FilterEntry)) (name_alerts : gmap Z Z)
    (clock clock' : Z) (msg : Message) (delta : option Z) :
  let run := _filter_message escape cfg env self_filters msg delta in
  (exempt cfg msg
   /\ run = ([], Ok tt)
   /\ on_message escape re_search cfg env self_filters name_alerts clock clock' msg
      = (([], Ok tt),
         Some (check_bad_words_in_name re_search cfg env name_alerts clock clock'
                 (author msg))))
  \/ (~ exempt cfg msg
      /\ run = filter_loop escape cfg env msg delta self_filters).
Proof.
  cbv zeta. pose proof (filter_message_exempt cfg msg) as H.
  unfold on_message, _filter_message.
  destruct (filter_message cfg msg).
  - right. split; [|reflexivity]. intros He. apply H in He. discriminate.
  - left. split; [now apply H|]. split; reflexivity.
Qed.

(** The message of a bot with a watched display name: the filter leaves it
    alone and the username check alerts. *)
Lemma exempt_message_untouched_witness :
  _filter_message Sample.escape Sample.cfg_names Sample.env Cases.table_names
    Cases.robot_post None = ([], Ok tt)
  /\ count_calls is_alert
       (check_bad_words_in_name Sample.literal_search Sample.cfg_names Sample.env
          ∅ 10 11 (author Cases.robot_post)).1 = 1%nat.
Proof.
  split; [|vm_compute; reflexivity].
  destruct (exempt_message_untouched Sample.escape Sample.literal_search Sample.cfg_names
              Sample.env Cases.table_names ∅ 10 11 Cases.robot_post None)
    as [(_ & H & _)|(Hn & _)]; [exact H|].
  exfalso. apply Hn. right. right. reflexivity.
Defined.

(** ** The missing key of the regex watchlist *)

(** X21: in the table of [__init__] the entry [watch_regex] has no
    [schedule_deletion] key. When that filter is enabled, the three filters
    before it fall through and [_has_watch_regex_match] finds a match on a
    message that is not exempt, the run raises [KeyError] on that key right
    after the function is called: nothing is counted or written to the mod
    log, and the later filters are not tried. *)
Theorem watch_regex_match_raises escape re_search cfg env
    (z w t : string -> M MatchValue) (msg : Message) (delta : option Z) (m : ReMatch) :
  filter_message cfg msg = true ->
  Forall (passes escape cfg env msg delta) (take 3 (filters re_search cfg env z w t)) ->
  watch_regex cfg = true ->
  _has_watch_regex_match re_search cfg (content msg) = VMatch m ->
  let run := _filter_message escape cfg env (filters re_search cfg env z w t) msg delta in
  run.2 = Raise (KeyError "schedule_deletion")
  /\ run_actions run.1 = []
  /\ evaluates "watch_regex" run.1 = true
  /\ evaluates "watch_words" run.1 = false.
Proof.
  intros Hfm Hpre Hen Hm. cbv zeta. unfold _filter_message. rewrite Hfm.
  change (filters re_search cfg env z w t)
    with (take 3 (filters re_search cfg env z w t)
          ++ drop 3 (filters re_search cfg env z w t)) at 1 2 3 4.
  destruct (filter_loop_pass_app escape cfg env msg delta _
              (drop 3 (filters re_search cfg env z w t)) Hpre) as [-> Hquiet].
  assert (Hturn : filter_loop escape cfg env msg delta
                    (drop 3 (filters re_search cfg env z w t))
                  = ([("watch_regex", Evaluate)], Raise (KeyError "schedule_deletion"))).
  { cbn [filters drop filter_loop]. unfold filter_body. cbn [enabled]. rewrite Hen.
    cbn [negb]. replace (double_trigger "watch_regex" delta) with false by reflexivity.
    unfold matcher_result. cbn [content_only function on_text]. unfold ret at 1.
    rewrite Hm. cbn [truthy]. reflexivity. }
  rewrite Hturn. cbn [fst snd]. split; [reflexivity|]. split.
  - unfold run_actions. rewrite actions_of_app, Hquiet. reflexivity.
  - rewrite !evaluates_app. split; [apply orb_true_r|].
    apply orb_false_iff. split; [|reflexivity].
    destruct (evaluates "watch_words" _) eqn:E; [|reflexivity].
    unfold evaluates in E. apply existsb_exists in E as ([n s] & Hin & Hs).
    destruct s; try discriminate. apply String.eqb_eq in Hs as ->.
    apply list_elem_of_In, filter_loop_tags in Hin. cbn in Hin.
    repeat (apply elem_of_cons in Hin as [Hin|Hin]; [discriminate|]).
    now apply elem_of_nil in Hin.
Qed.

Lemma watch_regex_match_raises_witness :
  (_filter_message Sample.escape Sample.cfg_names Sample.env Cases.table_names
     Sample.posted None).2 = Raise (KeyError "schedule_deletion")
  /\ run_actions (_filter_message Sample.escape Sample.cfg_names Sample.env
                    Cases.table_names Sample.posted None).1 = [].
Proof.
  destruct (watch_regex_match_raises Sample.escape Sample.literal_search
              Sample.cfg_names Sample.env Sample.never Sample.never Sample.never
              Sample.posted None
              {| m_string := "what the heck"; m_start := 9; m_end := 13 |})
    as (H1 & H2 & _).
  - reflexivity.
  - repeat constructor.
  - reflexivity.
  - vm_compute. reflexivity.
  - split; [exact H1 | exact H2].
Defined.

(** ** The cooldown of the username alert *)

(** X22: with every call going through, a display name that matches and a
    recorded stamp that is not zero, the check sends one alert and records
    a new stamp when the record, as [utcfromtimestamp] reads it, is three
    days old or older, to the microsecond, and neither alerts nor writes when
    it is younger. The new stamp is the clock reading less the offset of the
    host's zone, so it is the reading itself only on a host in UTC. *)
Theorem alert_after_three_days re_search cfg env (name_alerts : gmap Z Z)
    (member : Author) (last clock clock' : Z) :
  (forall a, raises env a = None) ->
  get_name_matches re_search cfg (display_name member) <> [] ->
  name_alerts !! author_id member = Some last ->
  last <> 0 ->
  let run := check_bad_words_in_name re_search cfg env name_alerts clock clock' member in
  if clock - timedelta_days 3 <? utcfromtimestamp last
  then run = ([CacheGet (author_id member)], Ok name_alerts)
  else count_calls is_alert run.1 = 1%nat
       /\ count_calls is_cache_write run.1 = 1%nat
       /\ CacheSet (author_id member) (clock' - local_utcoffset env clock') ∈ run.1
       /\ run.2 = Ok (<[author_id member := clock' - local_utcoffset env clock']> name_alerts).
Proof.
  intros Hquiet Hname Hlast H0. cbv zeta.
  unfold check_bad_words_in_name.
  rewrite bool_decide_eq_false_2 by exact Hname.
  unfold check_send_alert, bind, call, lift, ret. rewrite Hquiet, Hlast.
  apply Z.eqb_neq in H0. rewrite H0.
  unfold utcfromtimestamp, timestamp, utcnow_of, datetime, call_utcnow, DAYS_BETWEEN_ALERTS.
  destruct (clock - timedelta_days 3 <? last); [reflexivity|].
  cbn. rewrite !Hquiet. cbn. repeat split.
  repeat first [apply list_elem_of_here | apply list_elem_of_further].
Qed.

Lemma alert_after_three_days_witness :
  count_calls is_alert
    (check_bad_words_in_name Sample.literal_search Sample.cfg_names Sample.env
       (<[100 := 11]> ∅) (11 + timedelta_days 3) (12 + timedelta_days 3) Sample.alice).1
  = 1%nat.
Proof.
  pose proof (alert_after_three_days Sample.literal_search Sample.cfg_names Sample.env
                (<[100 := 11]> ∅) Sample.alice 11
                (11 + timedelta_days 3) (12 + timedelta_days 3)
                (fun a => eq_refl)) as H.
  cbv zeta in H.
  change (11 + timedelta_days 3 - timedelta_days 3 <? utcfromtimestamp 11)
    with false in H.
  apply H.
  - vm_compute. discriminate.
  - vm_compute. reflexivity.
  - discriminate.
Defined.

(** X23: the username check reads and writes the cache for the member it
    checks and for nobody else: its calls are about that member, and the
    record of every other user is the same after it. *)
Theorem name_check_touches_one_record re_search cfg env (name_alerts : gmap Z Z)
    (member : Author) (clock clock' : Z) :
  let run := check_bad_words_in_name re_search cfg env name_alerts clock clock' member in
  Forall (concerns member) run.1
  /\ match run.2 with
     | Ok name_alerts' =>
         forall other, other <> author_id member ->
                       name_alerts' !! other = name_alerts !! other
     | Raise _ => True
     end.
Proof.
  cbv zeta. unfold check_bad_words_in_name.
  destruct (bool_decide _); [cbn; split; [constructor | reflexivity]|].
  unfold check_send_alert, bind, call, lift, ret.
  unfold utcfromtimestamp, utcnow_of, datetime, call_utcnow.
  assert (Hins : forall x other, other <> author_id member ->
                   <[author_id member := x]> name_alerts !! other = name_alerts !! other)
    by (intros x other Hne; apply lookup_insert_ne; congruence).
  repeat case_match; simplify_eq/=;
    (split; [repeat constructor | first [exact I | reflexivity | apply Hins]]).
Qed.

(** X24: when the mod log refuses the alert, the check raises and the
    cache is not written, so the next check alerts again. *)
Theorem failed_alert_not_recorded re_search cfg env (name_alerts : gmap Z Z)
    (member : Author) (clock clock' : Z) :
  (forall a, is_alert a = true -> raises env a <> None) ->
  let run := check_bad_words_in_name re_search cfg env name_alerts clock clock' member in
  count_calls is_cache_write run.1 = 0%nat
  /\ forall name_alerts', run.2 = Ok name_alerts' -> name_alerts' = name_alerts.
Proof.
  intros Hdown. cbv zeta. unfold check_bad_words_in_name.
  destruct (bool_decide _); [cbn; split; [reflexivity | now intros ? [= <-]]|].
  unfold check_send_alert, bind, call, lift, ret.
  unfold utcfromtimestamp, utcnow_of, datetime, call_utcnow.
  repeat case_match; simplify_eq/=;
    try (split; [reflexivity | intros ? ?; congruence]);
    match goal with
    | H : raises env (SendLog ?a ?b ?c ?d ?e) = None |- _ =>
        exfalso; exact (Hdown (SendLog a b c d e) eq_refl H)
    end.
Qed.

Lemma failed_alert_not_recorded_witness :
  count_calls is_cache_write
    (check_bad_words_in_name Sample.literal_search Sample.cfg_names Cases.env_log_down
       ∅ 10 11 Sample.alice).1 = 0%nat
  /\ (check_bad_words_in_name Sample.literal_search Sample.cfg_names Cases.env_log_down
        ∅ 10 11 Sample.alice).2 = Raise HTTPException.
Proof.
  split; [|vm_compute; reflexivity].
  apply (failed_alert_not_recorded Sample.literal_search Sample.cfg_names
           Cases.env_log_down ∅ Sample.alice 10 11).
  intros a Ha. destruct a; discriminate.
Defined.

(** ** Deleting an offensive message *)

(** X25: when the fetch and the delete of the message fail only with
    [NotFound] or another [HTTPException], [delete_offensive_msg] swallows the
    failure and always ends with the removal of the record from the site,
    once; before it, it does nothing but the fetch and the delete, and
    neither of them when the channel is unknown. Its result is that of the
    removal. *)
Theorem delete_offensive_msg_purges (env : Env) (msg : OffensiveMsg) :
  (forall e, raises env (FetchMessage (om_channel_id msg) (om_id msg)) = Some e ->
             is_HTTPException e = true) ->
  (forall e, raises env (DeleteMessage (om_id msg)) = Some e ->
             is_HTTPException e = true) ->
  exists t,
    (delete_offensive_msg env msg).1 = t ++ [ApiDelete (om_id msg)]
    /\ (t = [] \/ t = [FetchMessage (om_channel_id msg) (om_id msg)]
        \/ t = [FetchMessage (om_channel_id msg) (om_id msg); DeleteMessage (om_id msg)])
    /\ (get_channel env (om_channel_id msg) = false -> t = [])
    /\ (delete_offensive_msg env msg).2
       = match raises env (ApiDelete (om_id msg)) with
         | Some e => Raise e
         | None => Ok tt
         end.
Proof.
  intros Hfetch Hdelete.
  unfold delete_offensive_msg, bind, try_except, call, ret.
  destruct (get_channel env (om_channel_id msg)).
  - destruct (raises env (FetchMessage (om_channel_id msg) (om_id msg))) as [e|] eqn:Ef.
    + specialize (Hfetch e eq_refl).
      assert (Hc : is_NotFound e || is_HTTPException e = true)
        by (rewrite Hfetch; apply orb_true_r).
      rewrite Hc. exists [FetchMessage (om_channel_id msg) (om_id msg)].
      cbn [app fst snd].
      split; [reflexivity|]. split; [right; left; reflexivity|].
      split; [discriminate|]. now destruct (raises env (ApiDelete (om_id msg))).
    + exists [FetchMessage (om_channel_id msg) (om_id msg); DeleteMessage (om_id msg)].
      destruct (raises env (DeleteMessage (om_id msg))) as [e|] eqn:Ed.
      * specialize (Hdelete e eq_refl).
        assert (Hc : is_NotFound e || is_HTTPException e = true)
          by (rewrite Hdelete; apply orb_true_r).
        cbn [app]. rewrite Hc. cbn [app fst snd].
        split; [reflexivity|]. split; [right; right; reflexivity|].
        split; [discriminate|]. now destruct (raises env (ApiDelete (om_id msg))).
      * cbn [app fst snd].
        split; [reflexivity|]. split; [right; right; reflexivity|].
        split; [discriminate|]. now destruct (raises env (ApiDelete (om_id msg))).
  - exists []. cbn [app fst snd].
    split; [reflexivity|]. split; [now left|].
    split; [reflexivity|]. now destruct (raises env (ApiDelete (om_id msg))).
Qed.

Lemma delete_offensive_msg_purges_witness :
  exists t,
    (delete_offensive_msg Sample.env_gone
       {| om_id := 11; om_channel_id := 5; delete_date := 1000 |}).1
    = t ++ [ApiDelete 11]
    /\ (t = [] \/ t = [FetchMessage 5 11]
        \/ t = [FetchMessage 5 11; DeleteMessage 11])
    /\ (get_channel Sample.env_gone 5 = false -> t = [])
    /\ (delete_offensive_msg Sample.env_gone
          {| om_id := 11; om_channel_id := 5; delete_date := 1000 |}).2 = Ok tt.
Proof.
  apply (delete_offensive_msg_purges Sample.env_gone
           {| om_id := 11; om_channel_id := 5; delete_date := 1000 |}).
  - intros e H. discriminate.
  - intros e [= <-]. reflexivity.
Defined.

(** X26: with the clock in hand and every call going through, the loop of
    the recovery takes the records in the order of the answer: it fetches and
    deletes the message of a record that is overdue (when the channel is
    known) and removes the record from the site, and it schedules under the
    message id a record that is due now or later. *)
Theorem reschedule_loop_sorts (env : Env) (now : Z) (response : list OffensiveMsg) :
  (forall a, raises env a = None) ->
  reschedule_loop env now response
  = (flat_map
       (fun msg =>
          if delete_date msg <? now then
            (if get_channel env (om_channel_id msg)
             then [FetchMessage (om_channel_id msg) (om_id msg); DeleteMessage (om_id msg)]
             else [])
            ++ [ApiDelete (om_id msg)]
          else [ScheduleTask (om_id msg) msg])
       response,
     Ok tt).
Proof. apply reschedule_loop_trace. Qed.

Lemma reschedule_loop_sorts_witness :
  reschedule_loop Sample.env 9000000 Sample.pending
  = ([FetchMessage 5 11; DeleteMessage 11; ApiDelete 11;
      ScheduleTask 12 {| om_id := 12; om_channel_id := 5; delete_date := 9000000 |}],
     Ok tt).
Proof.
  refine (eq_trans (reschedule_loop_sorts Sample.env 9000000 Sample.pending _) _).
  - intros a. reflexivity.
  - reflexivity.
Defined.

(** ** Rich embeds *)

(** X27: [_has_rich_embed] looks at the first embed of type ["rich"] and at
    no other: it answers [True] when that embed has no URL or a URL that
    [URL_RE] does not find in the text, and [False] otherwise, also when the
    message has no embed or none of that type. *)
Theorem has_rich_embed_decides_on_first (msg : Message) :
  _has_rich_embed msg
  = match List.find (fun embed => String.eqb (embed_type embed) "rich") (embeds msg) with
    | Some embed =>
        url_missing (embed_url embed)
        || negb (bool_decide (default "" (embed_url embed)
                              ∈ Re.URL_RE_findall (content msg)))
    | None => false
    end.
Proof. apply has_rich_embed_first_rich. Qed.

(** ** The domain filter and the case of the text *)

Lemma is_space_lower (c : ascii) : Re.is_space (Py.str_lower_char c) = Re.is_space c.
Proof. destruct c as [[] [] [] [] [] [] [] []]; reflexivity. Qed.

Lemma str_lower_char_twice (c : ascii) :
  Py.str_lower_char (Py.str_lower_char c) = Py.str_lower_char c.
Proof. destruct c as [[] [] [] [] [] [] [] []]; reflexivity. Qed.

Lemma fold_lower_char (c : ascii) :
  Py.lower_char (Py.str_lower_char c) = Py.lower_char c
  \/ (is_ascii7 (Py.lower_char (Py.str_lower_char c)) = false
      /\ is_ascii7 (Py.lower_char c) = false).
Proof.
  destruct c as [[] [] [] [] [] [] [] []];
    first [left; reflexivity | right; split; reflexivity].
Qed.

Lemma lower_char_ascii7 (p : ascii) :
  is_ascii7 p = true -> is_ascii7 (Py.lower_char p) = true.
Proof. destruct p as [[] [] [] [] [] [] [] []]; intros H; try discriminate; reflexivity. Qed.

Lemma eqb_ascii7 (x y : ascii) :
  is_ascii7 x = true -> is_ascii7 y = false -> Ascii.eqb x y = false.
Proof. intros Hx Hy. apply Ascii.eqb_neq. intros ->. congruence. Qed.

Lemma lower_twice (s : string) : Py.lower (Py.lower s) = Py.lower s.
Proof.
  induction s as [|c s IH]; [reflexivity|].
  cbn [Py.lower]. now rewrite str_lower_char_twice, IH.
Qed.

Lemma lower_length (s : string) : String.length (Py.lower s) = String.length s.
Proof. induction s as [|c s IH]; [reflexivity | cbn; now rewrite IH]. Qed.

Lemma lower_drop (n : nat) (s : string) :
  Py.string_drop n (Py.lower s) = Py.lower (Py.string_drop n s).
Proof. revert s. induction n as [|n IH]; intros [|c s]; try reflexivity. apply IH. Qed.

Lemma lower_take (n : nat) (s : string) :
  Py.string_take n (Py.lower s) = Py.lower (Py.string_take n s).
Proof.
  revert s. induction n as [|n IH]; intros [|c s]; try reflexivity.
  cbn [Py.lower Py.string_take]. now rewrite IH.
Qed.

Lemma starts_with_lower (lit s : string) :
  all_ascii7 lit = true ->
  Py.starts_with true lit (Py.lower s) = Py.starts_with true lit s.
Proof.
  revert s. induction lit as [|p lit IH]; intros s H; [reflexivity|].
  destruct s as [|c s]; [reflexivity|].
  cbn [all_ascii7] in H. apply andb_true_iff in H as [Hp H].
  cbn [Py.lower Py.starts_with]. rewrite IH by exact H. f_equal.
  destruct (fold_lower_char c) as [->|[H1 H2]]; [reflexivity|].
  apply lower_char_ascii7 in Hp. now rewrite !eqb_ascii7.
Qed.

Lemma eat_lower (lit s : string) :
  all_ascii7 lit = true -> Re.eat lit (Py.lower s) = Py.lower <$> Re.eat lit s.
Proof.
  intros H. unfold Re.eat. rewrite starts_with_lower by exact H.
  destruct (Py.starts_with true lit s); [|reflexivity].
  cbn. now rewrite lower_drop.
Qed.

Lemma span_nonspace_lower (s : string) :
  Re.span_len (fun c => negb (Re.is_space c)) (Py.lower s)
  = Re.span_len (fun c => negb (Re.is_space c)) s.
Proof.
  induction s as [|c s IH]; [reflexivity|].
  cbn [Py.lower Re.span_len]. now rewrite is_space_lower, IH.
Qed.

Lemma URL_RE_match_lower (s : string) :
  Re.URL_RE_match (Py.lower s)
  = (fun m => (m.1, Py.lower m.2)) <$> Re.URL_RE_match s.
Proof.
  unfold Re.URL_RE_match. rewrite eat_lower by reflexivity.
  destruct (Re.eat "http" s) as [r|]; [|reflexivity]. cbn [fmap option_fmap option_map mbind option_bind].
  rewrite eat_lower by reflexivity.
  assert (Hd : default (Py.lower r) (Py.lower <$> Re.eat "s" r)
               = Py.lower (default r (Re.eat "s" r)))
    by now destruct (Re.eat "s" r).
  rewrite Hd. rewrite eat_lower by reflexivity.
  destruct (Re.eat "://" (default r (Re.eat "s" r))) as [r'|]; [|reflexivity].
  cbn [fmap option_fmap option_map mbind option_bind].
  rewrite span_nonspace_lower, !lower_length.
  destruct (_ =? 0)%nat; [reflexivity|]. cbn. now rewrite lower_take.
Qed.

Lemma URL_RE_search_lower (text : string) :
  Re.URL_RE_search (Py.lower text) = Re.URL_RE_search text.
Proof.
  unfold Re.URL_RE_search. induction text as [|c text IH]; [reflexivity|].
  cbn [Re.search_from].
  change (String (Py.str_lower_char c) (Py.lower text)) with (Py.lower (String c text)).
  cbn [Py.lower Re.search_from].
  change (String (Py.str_lower_char c) (Py.lower text)) with (Py.lower (String c text)).
  rewrite URL_RE_match_lower.
  destruct (Re.URL_RE_match (String c text)); [reflexivity | exact IH].
Qed.

(** X28: the domain filter does not look at the case of the text: a text
    and its lower case get the same answer from [_has_urls]. *)
Theorem has_urls_ignores_case (cfg : FilterConfig) (text : string) :
  _has_urls cfg (Py.lower text) = _has_urls cfg text.
Proof.
  unfold _has_urls. now rewrite URL_RE_search_lower, lower_twice.
Qed.

(** ** Notices to the author *)

Lemma try_except_Forall_raised {A : Type} (P : Action -> Prop) (m : M A)
    (catches : exn -> bool) (h : M A) :
  Forall P m.1 ->
  (forall e, m.2 = Raise e -> catches e = true -> Forall P h.1) ->
  Forall P (try_except m catches h).1.
Proof.
  destruct m as [t [a|e]]; cbn; intros Ht Hh; [exact Ht|].
  destruct (catches e) eqn:E; [|exact Ht].
  specialize (Hh e eq_refl E). destruct h as [t' r]. cbn in *.
  apply Forall_app. now split.
Qed.

Lemma on_match_notices escape cfg env msg filter_name f match_ :
  Forall (notice_in_turn env msg f) (on_match escape cfg env msg filter_name f match_).1.
Proof.
  unfold on_match. apply bind_Forall.
  - destruct (_ && _); [|constructor].
    unfold delete_and_notify. apply bind_Forall.
    + apply try_except_Forall; [|constructor].
      apply bind_Forall; [apply call_Forall; exact I | intros; constructor].
    + intros deleted Hdel.
      assert (Hgone : deleted = true -> raises env (DeleteMessage (msg_id msg)) = None).
      { intros ->. unfold try_except, bind, call, ret in Hdel.
        destruct (raises env (DeleteMessage (msg_id msg))) as [e|]; [|reflexivity].
        cbn in Hdel. destruct (is_NotFound e); cbn in Hdel; discriminate. }
      destruct deleted; [|constructor]. specialize (Hgone eq_refl).
      apply bind_Forall; [apply getitem_Forall|].
      intros notify _. apply bind_Forall; [|intros; constructor].
      destruct notify; [|constructor].
      apply bind_Forall; [apply getitem_Forall|].
      intros reason Hreason. apply getitem_Ok in Hreason.
      unfold notify_member. apply try_except_Forall_raised.
      * apply call_Forall. now cbn.
      * intros e He Hc. apply call_Forall. cbn. exists reason.
        unfold call in He. cbn in He.
        destruct (raises env (SendDM (author_id (author msg)) reason)) as [e'|];
          [|discriminate].
        injection He as ->. destruct e; try discriminate. now repeat split.
  - intros go _. destruct (negb go); [constructor|].
    apply bind_Forall; [apply getitem_Forall|]. intros sched _.
    apply bind_Forall.
    + destruct (_ && _); [|constructor].
      unfold schedule_offensive. cbv zeta.
      apply bind_Forall; [apply call_Forall; exact I|].
      intros _ _. apply call_Forall. exact I.
    + intros _ _. cbv zeta.
      apply bind_Forall; [apply message_content_quiet|]. intros content _.
      apply bind_Forall; [apply call_Forall; exact I|]. intros _ _.
      apply bind_Forall; [apply additional_embeds_quiet|]. intros extra _.
      apply bind_Forall; [apply call_Forall; exact I|]. intros _ _. constructor.
Qed.

(** X29: a run notifies the author only after the delete of the message
    went through, with the notification text of the filter; the notice in the
    channel, the mention of the author before that text, is sent only when
    the DM with the text was refused with [Forbidden]. *)
Theorem notices_follow_delete escape cfg env (self_filters : list (string * FilterEntry))
    (msg : Message) (delta : option Z) (n : string) (a : Action) :
  (n, Acting a) ∈ (_filter_message escape cfg env self_filters msg delta).1 ->
  exists f, (n, f) ∈ self_filters /\ notice_in_turn env msg f a.
Proof.
  unfold _filter_message. destruct (filter_message cfg msg); [|cbn; set_solver].
  intros H. apply actions_of_elem in H.
  destruct (filter_loop_actions escape cfg env msg delta self_filters)
    as [E|(n0 & f & v & Hin & _ & _ & _ & E)]; rewrite E in H; [set_solver|].
  apply list_elem_of_fmap in H as (b & [= -> ->] & Hb).
  exists f. split; [exact Hin|].
  pose proof (on_match_notices escape cfg env msg n0 f v) as Hall.
  rewrite Forall_forall in Hall. now apply Hall.
Qed.

Lemma notices_follow_delete_witness :
  exists f, ("filter_invites", f) ∈ Sample.table Sample.env
            /\ notification_msg f
               = Some ("Per Rule 6, your invite link has been removed. "
                       +:+ staff_mistake_str +:+ nl +:+ nl
                       +:+ "Our server rules can be found here: <https://pythondiscord.com/pages/rules>")
            /\ raises Sample.env (DeleteMessage 13) = None.
Proof.
  apply (notices_follow_delete Sample.escape Sample.cfg Sample.env
           (Sample.table Sample.env) Sample.invite_post None "filter_invites"
           (SendDM 100 ("Per Rule 6, your invite link has been removed. "
                        +:+ staff_mistake_str +:+ nl +:+ nl
                        +:+ "Our server rules can be found here: <https://pythondiscord.com/pages/rules>"))).
  vm_compute. repeat first [apply list_elem_of_here | apply list_elem_of_further].
Defined.

(** ** From the match to the deferred deletion *)

(** X30: the record a run schedules for a message, once handed to
    [_scheduled_task], leads to the deletion of that message, entered no
    earlier than the configured number of days after its creation less one
    second, whatever the clock reads when the task starts. *)
Theorem scheduled_record_waits escape cfg env (self_filters : list (string * FilterEntry))
    (msg : Message) (delta : option Z) (n : string) (id : Z) (data : OffensiveMsg)
    (late : N) (clock : Z) :
  (n, Acting (ScheduleTask id data))
    ∈ (_filter_message escape cfg env self_filters msg delta).1 ->
  exists resumed,
    _scheduled_task env late clock data = Ok (resumed, delete_offensive_msg env data)
    /\ om_id data = msg_id msg
    /\ om_channel_id data = channel_id (channel msg)
    /\ created_at msg + timedelta_days (offensive_msg_delete_days cfg)
       - timedelta_seconds 1 <= resumed
    /\ clock <= resumed.
Proof.
  intros H. apply run_actions_allowed in H as (_ & f & _ & _ & _ & Hall).
  cbn in Hall. destruct Hall as (_ & -> & _).
  unfold _scheduled_task, Time.wait_until.
  cbn [utcnow_of attr_datetime Time.datetime call_utcnow offensive_record delete_date
       om_id om_channel_id].
  destruct (timedelta_seconds 1 <? _) eqn:E.
  - eexists. split; [reflexivity|]. apply Z.ltb_lt in E.
    unfold Time.asyncio_sleep, timedelta_seconds in *. repeat split; lia.
  - eexists. split; [reflexivity|]. apply Z.ltb_ge in E.
    unfold timedelta_seconds in *. repeat split; lia.
Qed.

Lemma scheduled_record_waits_witness :
  exists resumed,
    _scheduled_task Sample.env 0 5
      {| om_id := 11; om_channel_id := 5; delete_date := 604800000000 |}
    = Ok (resumed,
          delete_offensive_msg Sample.env
            {| om_id := 11; om_channel_id := 5; delete_date := 604800000000 |})
    /\ 11 = msg_id Sample.edited_at_once
    /\ 5 = channel_id (channel Sample.edited_at_once)
    /\ created_at Sample.edited_at_once
       + timedelta_days (offensive_msg_delete_days Sample.cfg)
       - timedelta_seconds 1 <= resumed
    /\ 5 <= resumed.
Proof.
  apply (scheduled_record_waits Sample.escape Sample.cfg Sample.env
           (Sample.table Sample.env) Sample.edited_at_once (Some 50) "watch_words" 11
           {| om_id := 11; om_channel_id := 5; delete_date := 604800000000 |} 0 5).
  vm_compute. repeat first [apply list_elem_of_here | apply list_elem_of_further].
Defined.
